(** * A-share stock screener: screening, scoring and ranking

    A shallow embedding of [scripts/stock_screener.py] (class
    [StockScreener]) and of [safe_float] from [scripts/data_fetcher.py],
    with the properties of the screening and scoring engine.

    Conventions of the embedding.
    - A cell of a table is [None], a number or a text.  Numbers are IEEE
      binary64 values (Rocq's primitive floats, the same format as a
      Python [float]); an integer cell is carried as the float of the
      same value, which is exact below 2^53.
    - A table row is a mapping from column name to cell; a table
      ([DataFrame]) is the ordered list of its column names, the name of
      that column index and the ordered list of its rows.
    - Text is a byte string in UTF-8, so a Chinese column name is the
      sequence of its bytes; equality of names is equality of bytes.
    - Table objects live in a store and are handled by reference, as
      Python objects are: an assignment to a column changes the object
      every alias sees.
    - What the program takes from pandas, NumPy and the interpreter and
      does not define itself (parsing of numeric text, decimal rounding,
      the sorting routine behind [sort_values]) is collected in the class
      [Runtime]; the data provider (akshare) is a feed of responses in
      the state. *)

From Stdlib Require Import ZArith List String Ascii Floats Bool Lia.
From Stdlib Require Import Sorting.Sorted Sorting.Permutation.
Import ListNotations.

Local Open Scope string_scope.
Local Open Scope list_scope.

(** ** Python values *)

(** The exceptions the modelled code can meet.  All of them derive from
    [Exception]. *)
Inductive exn : Type :=
| ValueError
| TypeError
| KeyError
| ProviderError (msg : string).

(** A cell of a table; [CNum nan] is pandas' missing number. *)
Inductive cell : Type :=
| CNone
| CNum (x : float)
| CStr (s : string).

(** Python truth value of a cell: [None], zero and the empty text are
    false; every other value, NaN included, is true. *)
Definition truthy (c : cell) : bool :=
  match c with
  | CNone => false
  | CNum x => negb (PrimFloat.eqb x 0%float)
  | CStr s => negb (String.eqb s "")
  end.

(** [pd.isna] on a scalar. *)
Definition isna (c : cell) : bool :=
  match c with
  | CNone => true
  | CNum x => PrimFloat.is_nan x
  | CStr _ => false
  end.

(** Equality of two cells as [Series.isin] sees it. *)
Definition cell_eqb (a b : cell) : bool :=
  match a, b with
  | CNone, CNone => true
  | CNum x, CNum y => PrimFloat.eqb x y || (PrimFloat.is_nan x && PrimFloat.is_nan y)
  | CStr s, CStr t => String.eqb s t
  | _, _ => false
  end.

(** ** Text operations *)

Definition startswith (s p : string) : bool := String.prefix p s.

(** [s.replace(old, new)] for a non-empty [old]: occurrences are replaced
    from the left and do not overlap.  [skip] counts the characters of
    an occurrence still to be dropped. *)
Fixpoint replace_from (old new : string) (skip : nat) (s : string) : string :=
  match s with
  | EmptyString => EmptyString
  | String c s' =>
      match skip with
      | S k => replace_from old new k s'
      | O =>
          if String.prefix old s
          then new ++ replace_from old new (String.length old - 1) s'
          else String c (replace_from old new 0 s')
      end
  end.

Definition replace (s old new : string) : string := replace_from old new 0 s.

(** [s.split(sep)] for a separator of one character. *)
Fixpoint split (s : string) (sep : ascii) : list string :=
  match s with
  | EmptyString => [EmptyString]
  | String c s' =>
      let rest := split s' sep in
      if Ascii.eqb c sep then EmptyString :: rest
      else match rest with
           | h :: t => String c h :: t
           | [] => [String c EmptyString]
           end
  end.

Definition str_in (s : string) (l : list string) : bool :=
  existsb (String.eqb s) l.

(** ** Rows, series and tables *)

(** A row of data: column name to cell. *)
Definition record : Type := list (string * cell).

Fixpoint lookup (k : string) (r : record) : option cell :=
  match r with
  | [] => None
  | (k', v) :: t => if String.eqb k' k then Some v else lookup k t
  end.

(** The cell of a row under a column of the table; a row that has no
    entry for a column holds the missing number there, as a table built
    from ragged records does. *)
Definition cell_at (r : record) (c : string) : cell :=
  match lookup c r with
  | Some v => v
  | None => CNum nan
  end.

Fixpoint set_cell (c : string) (v : cell) (r : record) : record :=
  match r with
  | [] => [(c, v)]
  | (k, x) :: t => if String.eqb k c then (c, v) :: t else (k, x) :: set_cell c v t
  end.

Record DataFrame : Type := mkDataFrame {
  columns_name : option string;   (* df.columns.name *)
  columns : list string;          (* df.columns *)
  rows : list record              (* the rows, in index order *)
}.

(** [pd.DataFrame()] *)
Definition empty_frame : DataFrame := mkDataFrame None [] [].

(** [df.empty]: some axis has length 0. *)
Definition empty (df : DataFrame) : bool :=
  match columns df, rows df with
  | [], _ => true
  | _, [] => true
  | _, _ => false
  end.

(** [df[mask]] for a mask computed row by row: the rows whose mask is
    true, in order, in a new table with the same columns.  (The mask is
    a series aligned with the table by row label, so every row is
    tested on its own value.) *)
Definition select (df : DataFrame) (mask : record -> bool) : DataFrame :=
  mkDataFrame (columns_name df) (columns df) (filter mask (rows df)).

(** [df[c] = values] with one value per row: the column is replaced, or
    appended when the table does not have it. *)
Definition setitem (df : DataFrame) (c : string) (value : record -> cell) : DataFrame :=
  mkDataFrame (columns_name df)
              (if str_in c (columns df) then columns df else columns df ++ [c])
              (map (fun r => set_cell c (value r) r) (rows df)).

(** [df.head(n)]: the first [n] rows; for a negative [n], all rows but
    the last [-n]. *)
Definition head (df : DataFrame) (n : Z) : DataFrame :=
  let k := if (0 <=? n)%Z then Z.to_nat n
           else (List.length (rows df) - Z.to_nat (- n))%nat in
  mkDataFrame (columns_name df) (columns df) (firstn k (rows df)).

(** A row handed to user code ([df.apply(f, axis=1)], [df.iterrows()]):
    a series labelled by the columns of the table. *)
Record Series : Type := mkSeries {
  index_name : option string;      (* row.index.name *)
  items : list (string * cell)     (* label, value *)
}.

Definition row_series (df : DataFrame) (r : record) : Series :=
  mkSeries (columns_name df) (map (fun c => (c, cell_at r c)) (columns df)).

(** [row.get(key, default)] *)
Definition series_get (row : Series) (key : string) (default : cell) : cell :=
  match lookup key (items row) with
  | Some v => v
  | None => default
  end.

(** A label of a column index: a text, or an integer when pandas
    numbers the columns itself. *)
Inductive label : Type :=
| LInt (n : Z)
| LStr (s : string).

Definition label_eqb (a b : label) : bool :=
  match a, b with
  | LInt n, LInt m => Z.eqb n m
  | LStr s, LStr t => String.eqb s t
  | _, _ => false
  end.

(** [df.columns] as an index of labels. *)
Definition frame_columns (df : DataFrame) : list label := map LStr (columns df).

(** [row.index.to_frame().columns].  [Index.to_frame()] builds a table
    with ONE column holding the labels of the index; that column is
    named after the index, or numbered 0 when the index has no name. *)
Definition index_to_frame_columns (row : Series) : list label :=
  match index_name row with
  | Some n => [LStr n]
  | None => [LInt 0]
  end.

(** ** The order of sort keys *)

(** The order [sort_values] puts two keys in: a missing key comes last
    whatever the direction; numbers are compared as numbers and texts
    as texts. *)
Definition key_leb (ascending : bool) (a b : cell) : bool :=
  if isna b then true
  else if isna a then false
  else match a, b with
       | CNum x, CNum y => if ascending then PrimFloat.leb x y else PrimFloat.leb y x
       | CStr s, CStr t => if ascending then String.leb s t else String.leb t s
       | _, _ => false
       end.

Definition key_order (column : string) (ascending : bool) (r1 r2 : record) : Prop :=
  key_leb ascending (cell_at r1 column) (cell_at r2 column) = true.

(** ** What the program takes from its libraries *)

Class Runtime : Type := {
  (** [pd.to_numeric(text, errors='coerce')]: the number the text
      denotes, NaN when it denotes none. *)
  to_numeric_text : string -> float;
  (** [float(text)]; [None] stands for [ValueError]. *)
  float_of_text : string -> option float;
  (** [round(x, 2)] *)
  round2 : float -> float;
  (** The reordering done by [df.sort_values(column, ascending=...)]
      with the default [kind] on the rows of a table; it fails with an
      exception when two keys cannot be compared. *)
  sort_values_rows : string -> bool -> list record -> exn + list record
}.

(** What the library promises of a sort that succeeds: the rows are
    the same rows, and their keys are in order.  The order of rows with
    equal keys is not part of it: the default [kind] of [sort_values]
    is [quicksort], which the library documents as not stable. *)
Definition sort_contract
    (sort : string -> bool -> list record -> exn + list record) : Prop :=
  forall column ascending l l',
    sort column ascending l = inr l' ->
    Permutation l l' /\ Sorted (key_order column ascending) l'.

(** An integer stored in a numeric column. *)
Definition float_of_int (z : Z) : float :=
  if (z <? 0)%Z then PrimFloat.opp (PrimFloat.of_uint63 (Uint63.of_Z (- z)))
  else PrimFloat.of_uint63 (Uint63.of_Z z).

(** [float(value)] *)
Definition py_float {RT : Runtime} (value : cell) : exn + float :=
  match value with
  | CNone => inl TypeError
  | CNum x => inr x
  | CStr s => match float_of_text s with
              | Some x => inr x
              | None => inl ValueError
              end
  end.

(** ** The store of table objects and the monad of the program *)

Definition loc : Type := nat.

Record state : Type := mkState {
  heap : list DataFrame;                       (* the table objects *)
  all_stocks_data : option loc;                (* self.all_stocks_data *)
  spot_feed : list (exn + DataFrame);          (* answers of ak.stock_zh_a_spot_em() *)
  cons_feed : list (string -> exn + DataFrame) (* answers of ak.index_stock_cons(symbol) *)
}.

Definition M (A : Type) : Type := state -> (exn + A) * state.

Definition ret {A} (a : A) : M A := fun s => (inr a, s).

Definition raise {A} (e : exn) : M A := fun s => (inl e, s).

Definition bind {A B} (m : M A) (k : A -> M B) : M B :=
  fun s => match m s with
           | (inr a, s') => k a s'
           | (inl e, s') => (inl e, s')
           end.

Notation "x <- m ;; k" := (bind m (fun x => k))
  (at level 61, m at next level, right associativity).
Notation "m ;; k" := (bind m (fun _ => k))
  (at level 61, right associativity).

(** [try: body except Exception as e: handler(e)]; what the body did to
    the state before it raised stays done. *)
Definition try_except {A} (body : M A) (handler : exn -> M A) : M A :=
  fun s => match body s with
           | (inl e, s') => handler e s'
           | r => r
           end.

Definition lift {A} (r : exn + A) : M A :=
  match r with
  | inl e => raise e
  | inr a => ret a
  end.

(** The table an object reference denotes. *)
Definition frame (s : state) (l : loc) : DataFrame := nth l (heap s) empty_frame.

Definition get_frame (l : loc) : M DataFrame := fun s => (inr (frame s l), s).

(** A new table object. *)
Definition new_frame (d : DataFrame) : M loc :=
  fun s => (inr (List.length (heap s)),
            mkState (heap s ++ [d]) (all_stocks_data s) (spot_feed s) (cons_feed s)).

Fixpoint list_set {A} (l : list A) (n : nat) (a : A) : list A :=
  match l, n with
  | [], _ => []
  | _ :: t, O => a :: t
  | h :: t, S k => h :: list_set t k a
  end.

(** The object at [l] is changed in place. *)
Definition set_frame (l : loc) (d : DataFrame) : M unit :=
  fun s => (inr tt,
            mkState (list_set (heap s) l d) (all_stocks_data s) (spot_feed s) (cons_feed s)).

(** [self.all_stocks_data = df] *)
Definition set_all_stocks_data (l : loc) : M unit :=
  fun s => (inr tt, mkState (heap s) (Some l) (spot_feed s) (cons_feed s)).

(** [ak.stock_zh_a_spot_em()]: the next answer of the provider, a new
    table object or an exception. *)
Definition ak_stock_zh_a_spot_em : M loc :=
  fun s => match spot_feed s with
           | [] => (inl (ProviderError "no response"), s)
           | r :: feed =>
               let s' := mkState (heap s) (all_stocks_data s) feed (cons_feed s) in
               match r with
               | inl e => (inl e, s')
               | inr d => new_frame d s'
               end
           end.

(** [ak.index_stock_cons(symbol=...)] *)
Definition ak_index_stock_cons (symbol : string) : M loc :=
  fun s => match cons_feed s with
           | [] => (inl (ProviderError "no response"), s)
           | r :: feed =>
               let s' := mkState (heap s) (all_stocks_data s) (spot_feed s) feed in
               match r symbol with
               | inl e => (inl e, s')
               | inr d => new_frame d s'
               end
           end.

(** [df[c]] as a series: the value of every row under [c]; [KeyError]
    when the table has no such column. *)
Definition getitem (d : DataFrame) (c : string) : M (record -> cell) :=
  if str_in c (columns d) then ret (fun r => cell_at r c) else raise KeyError.

(** [series.isin(codes)] *)
Definition isin (codes : list cell) (v : cell) : bool := existsb (cell_eqb v) codes.

(** ** stock_screener.py *)

Module StockScreener.

Section Screener.

Context {RT : Runtime}.

(** [retry_on_failure(max_retries, delay)] applied to [func]: the loop
    over the attempts, then [raise last_error].  (Waiting and printing
    have no part in the result.) *)
Fixpoint retry_loop {A} (attempts : nat) (last_error : option exn) (func : M A) : M A :=
  match attempts with
  | O => match last_error with
         | Some e => raise e
         | None => raise TypeError   (* raise None *)
         end
  | S k => try_except func (fun e => retry_loop k (Some e) func)
  end.

Definition retry_on_failure (max_retries : nat) {A} (func : M A) : M A :=
  retry_loop max_retries None func.

Definition INDEX_CODE_MAP : list (string * string) :=
  [ ("hs300", "000300");
    ("zz500", "000905");
    ("zz1000", "000852");
    ("cyb", "399006");
    ("kcb", "000688") ].

Fixpoint index_code (scope : string) (m : list (string * string)) : option string :=
  match m with
  | [] => None
  | (k, v) :: t => if String.eqb k scope then Some v else index_code scope t
  end.

Definition _get_all_stocks_realtime : M loc :=
  retry_on_failure 3 ak_stock_zh_a_spot_em.

Definition _get_index_constituents (code : string) : M (list cell) :=
  retry_on_failure 3
    (df <- ak_index_stock_cons code ;;
     d <- get_frame df ;;
     col <- getitem d "品种代码" ;;
     ret (map col (rows d))).

Definition _get_index_stocks_data (code : string) : M loc :=
  try_except
    (codes <- _get_index_constituents code ;;
     all_stocks <- _get_all_stocks_realtime ;;
     d <- get_frame all_stocks ;;
     col <- getitem d "代码" ;;
     new_frame (select d (fun r => isin codes (col r))))
    (fun _ => new_frame empty_frame).

Definition _get_custom_stocks_data (codes : list string) : M loc :=
  try_except
    (all_stocks <- _get_all_stocks_realtime ;;
     d <- get_frame all_stocks ;;
     col <- getitem d "代码" ;;
     new_frame (select d (fun r => isin (map CStr codes) (col r))))
    (fun _ => new_frame empty_frame).

(** Truth value of the argument [custom_codes]: a non-empty list. *)
Definition codes_truthy (custom_codes : option (list string)) : bool :=
  match custom_codes with
  | Some (_ :: _) => true
  | _ => false
  end.

Definition load_stock_data (scope : string) (custom_codes : option (list string)) : M loc :=
  try_except
    (df <- (if String.eqb scope "all" then ak_stock_zh_a_spot_em
            else match index_code scope INDEX_CODE_MAP with
                 | Some code => _get_index_stocks_data code
                 | None =>
                     if startswith scope "custom:" || codes_truthy custom_codes then
                       let codes := match custom_codes with
                                    | Some (c :: cs) => c :: cs
                                    | _ => split (replace scope "custom:" "") ","
                                    end in
                       _get_custom_stocks_data codes
                     else ak_stock_zh_a_spot_em
                 end) ;;
     set_all_stocks_data df ;;
     ret df)
    (fun _ => new_frame empty_frame).

(** [pd.to_numeric(value, errors='coerce')] on one cell. *)
Definition to_numeric (c : cell) : float :=
  match c with
  | CNone => nan
  | CNum x => x
  | CStr s => to_numeric_text s
  end.

Definition _apply_numeric_filter (df : loc) (column : string)
    (min_val max_val : option float) : M loc :=
  d <- get_frame df ;;
  if negb (str_in column (columns d)) then ret df
  else
    let numeric_col := fun r => to_numeric (cell_at r column) in
    df <- match min_val with
          | Some lo => d <- get_frame df ;;
                       new_frame (select d (fun r => PrimFloat.leb lo (numeric_col r)))
          | None => ret df
          end ;;
    df <- match max_val with
          | Some hi => d <- get_frame df ;;
                       new_frame (select d (fun r => PrimFloat.leb (numeric_col r) hi))
          | None => ret df
          end ;;
    ret df.

(** [col in df.columns], and the loop of [_find_column] over the
    candidates; the argument is the [columns] index of the table
    passed in. *)
Definition in_columns (col : string) (cols : list label) : bool :=
  existsb (label_eqb (LStr col)) cols.

Fixpoint _find_column (cols : list label) (candidates : list string) : option string :=
  match candidates with
  | [] => None
  | col :: rest => if in_columns col cols then Some col else _find_column cols rest
  end.

(** A filter dictionary: key to value, the value being [None] or a
    number. *)
Definition Dict : Type := list (string * option float).

(** [filters.get(key)] *)
Fixpoint dict_get (filters : Dict) (key : string) : option float :=
  match filters with
  | [] => None
  | (k, v) :: t => if String.eqb k key then v else dict_get t key
  end.

Definition ROE_ALIASES : list string := ["净资产收益率"; "ROE"; "加权净资产收益率"].

Definition is_some {A} (o : option A) : bool :=
  match o with Some _ => true | None => false end.

Definition apply_filters (df : loc) (filters : Dict) : M loc :=
  d <- get_frame df ;;
  filtered <- new_frame d ;;                                   (* df.copy() *)
  filtered <- _apply_numeric_filter filtered "市盈率-动态"
                (dict_get filters "pe_min") (dict_get filters "pe_max") ;;
  filtered <- _apply_numeric_filter filtered "市净率"
                (dict_get filters "pb_min") (dict_get filters "pb_max") ;;
  filtered <- (if is_some (dict_get filters "roe_min") then
                 d <- get_frame filtered ;;
                 match _find_column (frame_columns d) ROE_ALIASES with
                 | Some roe_col =>
                     if negb (String.eqb roe_col "") then
                       _apply_numeric_filter filtered roe_col (dict_get filters "roe_min") None
                     else ret filtered
                 | None => ret filtered
                 end
               else ret filtered) ;;
  filtered <- _apply_numeric_filter filtered "资产负债率"
                None (dict_get filters "debt_ratio_max") ;;
  d <- get_frame filtered ;;
  if str_in "总市值" (columns d) then
    if is_some (dict_get filters "market_cap_min") || is_some (dict_get filters "market_cap_max") then
      set_frame filtered
        (setitem d "总市值_亿"
           (fun r => CNum (PrimFloat.div (to_numeric (cell_at r "总市值")) 1e8%float))) ;;
      _apply_numeric_filter filtered "总市值_亿"
        (dict_get filters "market_cap_min") (dict_get filters "market_cap_max")
    else ret filtered
  else ret filtered.

(** [pd.to_numeric(row.get(column, np.nan), errors='coerce')] *)
Definition _get_numeric_value (row : Series) (column : string) : float :=
  to_numeric (series_get row column (CNum nan)).

Local Open Scope Z_scope.

(** [calculate_score].  With cells that are [None], numbers or texts no
    statement of the [try] block raises, so the block runs to its end
    and the handler is never entered. *)
Definition calculate_score (row : Series) : Z :=
  let score := 50 in
  let pe := _get_numeric_value row "市盈率-动态" in
  let score :=
    if negb (PrimFloat.is_nan pe) && PrimFloat.ltb 0%float pe then
      if PrimFloat.ltb pe 10%float then score + 15
      else if PrimFloat.ltb pe 15%float then score + 10
      else if PrimFloat.ltb pe 20%float then score + 5
      else if PrimFloat.ltb 50%float pe then score - 10
      else score
    else score in
  let pb := _get_numeric_value row "市净率" in
  let score :=
    if negb (PrimFloat.is_nan pb) && PrimFloat.ltb 0%float pb then
      if PrimFloat.ltb 0.5%float pb && PrimFloat.ltb pb 1.5%float then score + 10
      else if PrimFloat.leb 1.5%float pb && PrimFloat.ltb pb 3%float then score + 5
      else if PrimFloat.ltb 5%float pb then score - 5
      else score
    else score in
  let roe_col := _find_column (index_to_frame_columns row) ROE_ALIASES in
  let score :=
    match roe_col with
    | Some col =>
        if negb (String.eqb col "") then
          let roe := _get_numeric_value row col in
          if negb (PrimFloat.is_nan roe) then
            if PrimFloat.ltb 20%float roe then score + 15
            else if PrimFloat.ltb 15%float roe then score + 10
            else if PrimFloat.ltb 10%float roe then score + 5
            else if PrimFloat.ltb roe 5%float then score - 5
            else score
          else score
        else score
    | None => score
    end in
  let change := _get_numeric_value row "涨跌幅" in
  let score :=
    if negb (PrimFloat.is_nan change) then
      if PrimFloat.ltb (-5)%float change && PrimFloat.ltb change 0%float then score + 3
      else if PrimFloat.ltb change (-5)%float then score + 5
      else score
    else score in
  Z.max 0 (Z.min 100 score).

Local Close Scope Z_scope.

(** [df.sort_values(column, ascending=...)]: a new table with the rows
    reordered. *)
Definition sort_values (df : loc) (column : string) (ascending : bool) : M loc :=
  d <- get_frame df ;;
  sorted <- lift (sort_values_rows column ascending (rows d)) ;;
  new_frame (mkDataFrame (columns_name d) (columns d) sorted).

(** Truth value of the argument [filters]: a non-empty dictionary. *)
Definition filters_truthy (filters : option Dict) : bool :=
  match filters with
  | Some (_ :: _) => true
  | _ => false
  end.

(** One entry of the result list.  The keys of the Python dictionary
    are, in this order: 代码, 名称, 最新价, 涨跌幅, 市盈率, 市净率,
    总市值(亿), 评分. *)
Record Result : Type := mkResult {
  r_code : cell;
  r_name : cell;
  r_price : cell;
  r_change : cell;
  r_pe : cell;
  r_pb : cell;
  r_market_cap : cell;
  r_score : cell
}.

(** The body of the loop at the end of [screen]: the dictionary built
    from one row. *)
Definition result_of_row (row : Series) : exn + Result :=
  match (if truthy (series_get row "总市值" CNone) then
           match py_float (series_get row "总市值" (CNum 0%float)) with
           | inr x => inr (CNum (round2 (PrimFloat.div x 100000000%float)))
           | inl e => inl e
           end
         else inr (CStr "")) with
  | inr cap =>
      inr (mkResult (series_get row "代码" (CStr ""))
                    (series_get row "名称" (CStr ""))
                    (series_get row "最新价" (CStr ""))
                    (series_get row "涨跌幅" (CStr ""))
                    (series_get row "市盈率-动态" (CStr ""))
                    (series_get row "市净率" (CStr ""))
                    cap
                    (series_get row "评分" (CNum 50%float)))
  | inl e => inl e
  end.

(** The loop over [df.iterrows()]: the first row that raises ends it. *)
Fixpoint results_of_rows (l : list Series) : exn + list Result :=
  match l with
  | [] => inr []
  | row :: rest =>
      match result_of_row row with
      | inl e => inl e
      | inr res =>
          match results_of_rows rest with
          | inl e => inl e
          | inr results => inr (res :: results)
          end
      end
  end.

Definition to_results (d : DataFrame) : exn + list Result :=
  results_of_rows (map (row_series d) (rows d)).

(** [screen] up to and including the scores (loading, filtering,
    scoring); [None] stands for the two early [return []]. *)
Definition scored (scope : string) (filters : option Dict) : M (option loc) :=
  df <- (if startswith scope "custom:" then
           let codes := split (replace scope "custom:" "") "," in
           load_stock_data "custom" (Some codes)
         else load_stock_data scope None) ;;
  d <- get_frame df ;;
  if empty d then ret None
  else
    df <- (if filters_truthy filters then
             match filters with
             | Some f => apply_filters df f
             | None => ret df
             end
           else ret df) ;;
    d <- get_frame df ;;
    if empty d then ret None
    else
      set_frame df
        (setitem d "评分"
           (fun r => CNum (float_of_int (calculate_score (row_series d r))))) ;;
      ret (Some df).

(** The sort of [screen]: the chain of tests on [sort_by]. *)
Definition rank (df : loc) (sort_by : string) : M loc :=
  if String.eqb sort_by "score" then sort_values df "评分" false
  else if String.eqb sort_by "pe" then
    d <- get_frame df ;;
    if str_in "市盈率-动态" (columns d)
    then sort_values df "市盈率-动态" true else ret df
  else if String.eqb sort_by "pb" then
    d <- get_frame df ;;
    if str_in "市净率" (columns d)
    then sort_values df "市净率" true else ret df
  else if String.eqb sort_by "market_cap" then
    d <- get_frame df ;;
    if str_in "总市值" (columns d)
    then sort_values df "总市值" false else ret df
  else ret df.

(** Truth value of the argument [top_n]. *)
Definition top_n_truthy (top_n : option Z) : bool :=
  match top_n with
  | Some n => negb (Z.eqb n 0)
  | None => false
  end.

(** The limit on the number of rows: [if top_n: df = df.head(top_n)]. *)
Definition limit (df : loc) (top_n : option Z) : M loc :=
  if top_n_truthy top_n then
    match top_n with
    | Some n => d <- get_frame df ;; new_frame (head d n)
    | None => ret df
    end
  else ret df.

Definition screen (scope : string) (filters : option Dict) (sort_by : string)
    (top_n : option Z) : M (list Result) :=
  o <- scored scope filters ;;
  match o with
  | None => ret []
  | Some df =>
      df <- rank df sort_by ;;
      df <- limit df top_n ;;
      d <- get_frame df ;;
      lift (to_results d)
  end.

End Screener.

End StockScreener.

(** ** data_fetcher.py *)

Module DataFetcher.

Section Fetcher.

Context {RT : Runtime}.



End Fetcher.

End DataFetcher.

(** ** The vocabulary of the specification

    The filter pipeline in the words of its specification: what it is
    for a row to pass a constraint and to be retained, and the table
    the pipeline is to produce.  The theorems compare the program with
    these. *)

Module Spec.

Import StockScreener.

Section Words.

Context {RT : Runtime}.

Definition within (lo hi : option float) (v : float) : bool :=
  match lo with Some l => PrimFloat.leb l v | None => true end
  && match hi with Some h => PrimFloat.leb v h | None => true end.

Definition bounded (lo hi : option float) : bool := is_some lo || is_some hi.

(** The normalized value of a row under a column. *)
Definition value (r : record) (c : string) : float := to_numeric (cell_at r c).

(** The market capitalisation of a row in hundreds of millions. *)
Definition cap_yi (r : record) : float := PrimFloat.div (value r "总市值") 1e8%float.

(** A range constraint on a column; it does not apply when the table
    has no such column. *)
Definition range_ok (cols : list string) (c : string) (lo hi : option float)
    (r : record) : bool :=
  if str_in c cols then within lo hi (value r c) else true.

Definition roe_ok (cols : list string) (filters : Dict) (r : record) : bool :=
  match dict_get filters "roe_min", _find_column (map LStr cols) ROE_ALIASES with
  | Some lo, Some c => PrimFloat.leb lo (value r c)
  | _, _ => true
  end.

Definition cap_ok (cols : list string) (filters : Dict) (r : record) : bool :=
  if str_in "总市值" cols
  then within (dict_get filters "market_cap_min") (dict_get filters "market_cap_max") (cap_yi r)
  else true.

(** A row is retained when it passes every configured constraint. *)
Definition retained (cols : list string) (filters : Dict) (r : record) : bool :=
  range_ok cols "市盈率-动态" (dict_get filters "pe_min") (dict_get filters "pe_max") r
  && range_ok cols "市净率" (dict_get filters "pb_min") (dict_get filters "pb_max") r
  && roe_ok cols filters r
  && range_ok cols "资产负债率" None (dict_get filters "debt_ratio_max") r
  && cap_ok cols filters r.

(** The market-capitalisation constraint is evaluated on a helper
    column, which stays in the filtered table. *)
Definition cap_applied (cols : list string) (filters : Dict) : bool :=
  str_in "总市值" cols
  && bounded (dict_get filters "market_cap_min") (dict_get filters "market_cap_max").

Definition with_cap (cols : list string) (filters : Dict) (r : record) : record :=
  if cap_applied cols filters then set_cell "总市值_亿" (CNum (cap_yi r)) r else r.




(** One range constraint applied to a table. *)
Definition range_filter (d : DataFrame) (column : string) (lo hi : option float) : DataFrame :=
  if str_in column (columns d)
  then select d (fun r => within lo hi (value r column))
  else d.

(** The table the pipeline is to produce. *)
Definition filtered (d : DataFrame) (filters : Dict) : DataFrame :=
  mkDataFrame (columns_name d)
    (if cap_applied (columns d) filters && negb (str_in "总市值_亿" (columns d))
     then columns d ++ ["总市值_亿"] else columns d)
    (map (with_cap (columns d) filters)
         (filter (retained (columns d) filters) (rows d))).


(** [screen] up to and including the sort: the sorted set, before the
    limit on the number of rows. *)
Definition ranked (scope : string) (filters : option Dict) (sort_by : string)
  : M (option loc) :=
  o <- scored scope filters ;;
  match o with
  | None => ret None
  | Some df => df <- rank df sort_by ;; ret (Some df)
  end.

(** A scope token that is neither the keyword of the whole market, nor
    the short name of an index, nor a list of codes. *)
Definition unknown_scope (scope : string) : bool :=
  negb (String.eqb scope "all")
  && negb (is_some (index_code scope INDEX_CODE_MAP))
  && negb (startswith scope "custom:").

End Words.

End Spec.

(** A run of the program that returns, with what holds of the value and
    of the state it leaves. *)
Definition returns {A} (m : M A) (s : state) (Q : A -> state -> Prop) : Prop :=
  exists a s', m s = (inr a, s') /\ Q a s'.

(** The state [s] is [s0] with more table objects: the objects of [s0]
    are unchanged. *)
Definition grows (s0 s : state) : Prop :=
  (exists extra, heap s = heap s0 ++ extra) /\
  all_stocks_data s = all_stocks_data s0 /\
  spot_feed s = spot_feed s0 /\
  cons_feed s = cons_feed s0.

(** ** A reference runtime

    One implementation of [Runtime], used to run the program on
    concrete tables.  The parser reads [nan], [inf], [-inf] and plain
    decimal literals of at most 15 digits (an optional minus sign,
    digits, an optional fraction); such a literal is the quotient of
    two exactly represented numbers, hence correctly rounded.  It
    covers no other notation (exponents, blanks, digit separators) and
    takes such text as not numeric; the examples use none.  The sort is
    an insertion sort, which keeps rows with equal keys in their
    order. *)

Module Reference.

Definition digit_of (c : ascii) : option Z :=
  let n := nat_of_ascii c in
  if Nat.leb 48 n && Nat.leb n 57 then Some (Z.of_nat (n - 48)) else None.

Fixpoint digits_value (s : string) (acc : Z) : option Z :=
  match s with
  | EmptyString => Some acc
  | String c s' =>
      match digit_of c with
      | Some d => digits_value s' (10 * acc + d)%Z
      | None => None
      end
  end.

Definition unsigned_decimal (s : string) : option float :=
  let parts := split s "." in
  let whole := nth 0 parts "" in
  let frac := nth 1 parts "" in
  let n := (String.length whole + String.length frac)%nat in
  if Nat.leb (List.length parts) 2 && Nat.leb 1 n && Nat.leb n 15 then
    match digits_value (whole ++ frac) 0 with
    | Some m =>
        Some (PrimFloat.div (float_of_int m)
                            (float_of_int (10 ^ Z.of_nat (String.length frac))))
    | None => None
    end
  else None.

Definition parse_float (s : string) : option float :=
  if String.eqb s "nan" then Some nan
  else if String.eqb s "inf" then Some infinity
  else if String.eqb s "-inf" then Some neg_infinity
  else match s with
       | String "-" s' => option_map PrimFloat.opp (unsigned_decimal s')
       | _ => unsigned_decimal s
       end.

Definition parse_or_nan (s : string) : float :=
  match parse_float s with
  | Some x => x
  | None => nan
  end.

(** Rounding to two decimals by scaling.  It is the interpreter's
    [round(x, 2)] on NaN, infinities and integral values, the only
    ones the examples round; elsewhere it can differ from it in the
    last place. *)
Definition round_2 (x : float) : float :=
  let two52 := 4503599627370496%float in
  let y := PrimFloat.mul (PrimFloat.abs x) 100%float in
  if PrimFloat.is_nan x || PrimFloat.is_infinity x || PrimFloat.leb two52 y then x
  else
    let q := PrimFloat.div (PrimFloat.sub (PrimFloat.add y two52) two52) 100%float in
    if PrimFloat.ltb x 0%float then PrimFloat.opp q else q.

Definition is_num_key (c : cell) : bool :=
  match c with CNum x => negb (PrimFloat.is_nan x) | _ => false end.

Definition is_str_key (c : cell) : bool :=
  match c with CStr _ => true | _ => false end.

(** Two keys that a sort can compare: not a number and a text. *)
Definition compat (a b : cell) : Prop :=
  ~ (is_num_key a = true /\ is_str_key b = true) /\
  ~ (is_str_key a = true /\ is_num_key b = true).

(** A number cannot be compared with a text. *)
Definition comparable (keys : list cell) : bool :=
  negb (existsb is_num_key keys && existsb is_str_key keys).

Fixpoint insert_row (column : string) (ascending : bool) (r : record) (l : list record)
  : list record :=
  match l with
  | [] => [r]
  | h :: t =>
      if key_leb ascending (cell_at r column) (cell_at h column)
      then r :: h :: t
      else h :: insert_row column ascending r t
  end.

Fixpoint insertion_sort (column : string) (ascending : bool) (l : list record)
  : list record :=
  match l with
  | [] => []
  | r :: t => insert_row column ascending r (insertion_sort column ascending t)
  end.

Definition stable_sort (column : string) (ascending : bool) (l : list record)
  : exn + list record :=
  if comparable (map (fun r => cell_at r column) l)
  then inr (insertion_sort column ascending l)
  else inl TypeError.


#[export] Instance runtime : Runtime := {
  to_numeric_text := parse_or_nan;
  float_of_text := parse_float;
  round2 := round_2;
  sort_values_rows := stable_sort
}.


End Reference.

(** ** Example tables *)

Module Examples.

Definition row_A : record :=
  [("代码", CStr "A"); ("市盈率-动态", CNum 8); ("市净率", CNum 1.0);
   ("ROE", CNum 22); ("涨跌幅", CNum (-3))].

Definition row_B : record :=
  [("代码", CStr "B"); ("市盈率-动态", CNum 60); ("市净率", CNum 6);
   ("ROE", CNum 4); ("涨跌幅", CNum 2)].

Definition two_rows : DataFrame :=
  mkDataFrame None ["代码"; "市盈率-动态"; "市净率"; "ROE"; "涨跌幅"] [row_A; row_B].

(** The same table, with a column index that happens to be named
    after an ROE alias. *)
Definition two_rows_named : DataFrame :=
  mkDataFrame (Some "ROE") ["代码"; "市盈率-动态"; "市净率"; "ROE"; "涨跌幅"] [row_A; row_B].

(** The same table without its ROE column. *)
Definition no_roe : DataFrame :=
  mkDataFrame None ["代码"; "市盈率-动态"; "市净率"; "涨跌幅"]
    [ [("代码", CStr "A"); ("市盈率-动态", CNum 8); ("市净率", CNum 1.0); ("涨跌幅", CNum (-3))];
      [("代码", CStr "B"); ("市盈率-动态", CNum 60); ("市净率", CNum 6); ("涨跌幅", CNum 2)] ].

(** A table whose market capitalisation column holds the placeholder
    of the provider in one row. *)
Definition row_C : record := [("代码", CStr "C"); ("总市值", CNum 20000000000)].
Definition row_D : record := [("代码", CStr "D"); ("总市值", CStr "--")].

Definition cap_table : DataFrame := mkDataFrame None ["代码"; "总市值"] [row_C; row_D].

Definition cap_table_clean : DataFrame := mkDataFrame None ["代码"; "总市值"] [row_C].



(** The state of a new screener whose provider answers the next
    request for the market snapshot with [d]. *)
Definition fresh (d : DataFrame) : state := mkState [] None [inr d] [].

End Examples.

(** * The runs of the screener

    Vocabulary for the properties of whole runs: what a call may do to
    the state, a provider that only raises, and the table a run of
    [screen] ranks. *)

Module Pipeline.

Import StockScreener Spec.

(** The state after a call that only allocates tables and consumes
    answers of the provider: the tables there were are unchanged, and
    so is [self.all_stocks_data]. *)
Definition extends (s s' : state) : Prop :=
  (exists extra, heap s' = heap s ++ extra) /\
  all_stocks_data s' = all_stocks_data s.

Definition steady {A} (m : M A) : Prop := forall s, extends s (snd (m s)).

(** A provider all of whose coming answers are exceptions. *)
Definition provider_fails (s : state) : Prop :=
  Forall (fun a : exn + DataFrame => exists e, a = inl e) (spot_feed s) /\
  Forall (fun r : string -> exn + DataFrame => forall symbol, exists e, r symbol = inl e)
         (cons_feed s).

(** A call that raises whenever the provider only raises, and leaves a
    provider that only raises. *)
Definition fails_on {A} (m : M A) : Prop :=
  forall s, provider_fails s ->
    exists e s', m s = (inl e, s') /\ provider_fails s'.

(** The keys [apply_filters] looks up in the filter specification. *)
Definition recognized_keys : list string :=
  ["pe_min"; "pe_max"; "pb_min"; "pb_max"; "roe_min"; "debt_ratio_max";
   "market_cap_min"; "market_cap_max"].

Section Kept.

Context {RT : Runtime}.

(** The rows of the loaded table [d] a run of [screen] keeps: those
    retained by the filter specification when it is true as a Python
    value, all of them otherwise. *)
Definition kept_rows (d : DataFrame) (filters : option Dict) : list record :=
  match filters with
  | Some (e :: f) => filter (retained (columns d) (e :: f)) (rows d)
  | _ => rows d
  end.

(** The table [screen] scores. *)
Definition kept_table (d : DataFrame) (filters : option Dict) : DataFrame :=
  match filters with
  | Some (e :: f) => filtered d (e :: f)
  | _ => d
  end.

(** [df['评分'] = df.apply(self.calculate_score, axis=1)] *)
Definition scored_table (t : DataFrame) : DataFrame :=
  setitem t "评分" (fun r => CNum (float_of_int (calculate_score (row_series t r)))).

End Kept.

End Pipeline.

(** ** data_fetcher.py: the fetchers

    The fetchers ask the provider for tables and turn them into
    dictionaries and lists.  They hold no table by reference, so the
    state is only what the provider still has to answer: for each
    endpoint, the answers to the coming requests, each a function of
    the symbol asked for.  An answer is an exception, [None] or a
    table. *)

Module Fetcher.

Import StockScreener.

Inductive endpoint : Type :=
| stock_individual_info_em
| stock_balance_sheet_by_report_em
| stock_profit_sheet_by_report_em
| stock_cash_flow_sheet_by_report_em
| stock_financial_abstract
| stock_financial_analysis_indicator
| stock_gdfx_top_10_em
| stock_zh_a_gdhs
| stock_dividend_cninfo
| stock_history_dividend_detail
| index_stock_cons
| stock_zh_a_spot_em.

Definition endpoint_eqb (a b : endpoint) : bool :=
  match a, b with
  | stock_individual_info_em, stock_individual_info_em
  | stock_balance_sheet_by_report_em, stock_balance_sheet_by_report_em
  | stock_profit_sheet_by_report_em, stock_profit_sheet_by_report_em
  | stock_cash_flow_sheet_by_report_em, stock_cash_flow_sheet_by_report_em
  | stock_financial_abstract, stock_financial_abstract
  | stock_financial_analysis_indicator, stock_financial_analysis_indicator
  | stock_gdfx_top_10_em, stock_gdfx_top_10_em
  | stock_zh_a_gdhs, stock_zh_a_gdhs
  | stock_dividend_cninfo, stock_dividend_cninfo
  | stock_history_dividend_detail, stock_history_dividend_detail
  | index_stock_cons, index_stock_cons
  | stock_zh_a_spot_em, stock_zh_a_spot_em => true
  | _, _ => false
  end.

(** What an [except Exception as e] clause of the fetchers can catch. *)
Inductive error : Type :=
| Raised (e : exn)                  (* raised by the provider *)
| KeyErrorOf (key : string)         (* df[key] without that column *)
| NoneHasNoAttribute (attr : string). (* an attribute of None *)

Definition answer : Type := string -> exn + option DataFrame.

Definition world : Type := endpoint -> list answer.

Definition F (A : Type) : Type := world -> (error + A) * world.

Definition fret {A} (a : A) : F A := fun w => (inr a, w).

Definition fraise {A} (e : error) : F A := fun w => (inl e, w).

Definition fbind {A B} (m : F A) (k : A -> F B) : F B :=
  fun w => match m w with
           | (inr a, w') => k a w'
           | (inl e, w') => (inl e, w')
           end.

Definition ftry {A} (body : F A) (handler : error -> F A) : F A :=
  fun w => match body w with
           | (inl e, w') => handler e w'
           | r => r
           end.

Notation "x <~ m ;; k" := (fbind m (fun x => k))
  (at level 61, m at next level, right associativity).

(** A request to an endpoint: its next answer, for the symbol. *)
Definition ak (ep : endpoint) (symbol : string) : F (option DataFrame) :=
  fun w => match w ep with
           | [] => (inl (Raised (ProviderError "no response")), w)
           | a :: rest =>
               let w' := fun ep' => if endpoint_eqb ep' ep then rest else w ep' in
               match a symbol with
               | inl e => (inl (Raised e), w')
               | inr d => (inr d, w')
               end
           end.

(** The entries of the dictionaries the fetchers build. *)
Inductive item : Type :=
| IInt (n : Z)
| IText (s : string)
| IMessage (e : error)                       (* str(e) *)
| IRetryMessage (n : nat) (e : option error) (* f"重试{n}次后失败: {str(e)}" *)
| IRecords (l : list record).                (* df.to_dict(orient='records') *)

Definition pydict : Type := list (string * item).

(** The values the fetchers return. *)
Inductive value : Type :=
| VCells (l : list cell)      (* series.tolist() *)
| VRecords (l : list record)  (* df.to_dict(orient='records') *)
| VDict (d : pydict).

(** [d[key] = v]: the entry is replaced where it stands, or added at
    the end. *)
Fixpoint dict_set (d : pydict) (key : string) (v : item) : pydict :=
  match d with
  | [] => [(key, v)]
  | (k, x) :: t => if String.eqb k key then (key, v) :: t else (k, x) :: dict_set t key v
  end.

(** [d.get(key)] *)
Fixpoint dict_find (d : pydict) (key : string) : option item :=
  match d with
  | [] => None
  | (k, x) :: t => if String.eqb k key then Some x else dict_find t key
  end.

(** [df.to_dict(orient='records')]: one dictionary per row, over the
    columns of the table. *)
Definition to_records (d : DataFrame) : list record :=
  map (fun r => items (row_series d r)) (rows d).

(** [df[key].tolist()] *)
Definition column_tolist (d : DataFrame) (key : string) : F (list cell) :=
  if str_in key (columns d) then fret (map (fun r => cell_at r key) (rows d))
  else fraise (KeyErrorOf key).

(** [retry_on_failure(max_retries, delay)] of this file: after the last
    failed attempt it returns a dictionary with the error instead of
    raising. *)
Fixpoint retry_loop (max_retries attempts : nat) (last_error : option error)
    (func : F value) : F value :=
  match attempts with
  | O => fret (VDict [("error", IRetryMessage max_retries last_error)])
  | S k => ftry func (fun e => retry_loop max_retries k (Some e) func)
  end.

Definition retry_on_failure (max_retries : nat) (func : F value) : F value :=
  retry_loop max_retries max_retries None func.




(** The loop of [get_financial_indicators] over the two endpoints.  The
    body of the loop either returns from the function ([Some]) or goes
    on to the next endpoint ([None]). *)
Fixpoint indicators_loop (apis : list endpoint) (code : string) (limit : Z) : F value :=
  match apis with
  | [] => fret (VRecords [])
  | api :: rest =>
      returned <~ ftry
                    (df <~ ak api code ;;
                     match df with
                     | Some d =>
                         if negb (empty d)
                         then fret (Some (VRecords (to_records (head d limit))))
                         else fret None
                     | None => fret None
                     end)
                    (fun _ => fret None) ;;
      match returned with
      | Some v => fret v
      | None => indicators_loop rest code limit
      end
  end.

Definition get_financial_indicators (code : string) (limit : Z) : F value :=
  indicators_loop [stock_financial_abstract; stock_financial_analysis_indicator]
                  code limit.

Definition get_holder_data (code : string) : F value :=
  retry_on_failure 2
    (let result : pydict := [] in
     result <~ ftry
                 (df_top10 <~ ak stock_gdfx_top_10_em code ;;
                  match df_top10 with
                  | Some d =>
                      if negb (empty d)
                      then fret (dict_set result "top_10_holders"
                                   (IRecords (to_records (head d 10))))
                      else fret result
                  | None => fret result
                  end)
                 (fun e => fret (dict_set result "top_10_holders_error" (IMessage e))) ;;
     result <~ ftry
                 (df_holder_num <~ ak stock_zh_a_gdhs code ;;
                  match df_holder_num with
                  | Some d =>
                      if negb (empty d)
                      then fret (dict_set result "holder_count_history"
                                   (IRecords (to_records (head d 10))))
                      else fret result
                  | None => fret result
                  end)
                 (fun e => fret (dict_set result "holder_count_error" (IMessage e))) ;;
     fret (VDict result)).



Definition index_map : list (string * string) :=
  [ ("hs300", "000300");
    ("zz500", "000905");
    ("zz1000", "000852");
    ("cyb", "399006");
    ("kcb", "000688") ].

Fixpoint index_map_get (m : list (string * string)) (index_name : string) : option string :=
  match m with
  | [] => None
  | (k, v) :: t => if String.eqb k index_name then Some v else index_map_get t index_name
  end.

Definition get_index_constituents (index_name : string) : F value :=
  retry_on_failure 2
    (match index_map_get index_map index_name with
     | None => fret (VCells [])
     | Some index_code =>
         if String.eqb index_code "" then fret (VCells [])
         else
           ftry
             (df <~ ak index_stock_cons index_code ;;
              match df with
              | Some d =>
                  if negb (empty d)
                  then codes <~ column_tolist d "品种代码" ;; fret (VCells codes)
                  else fret (VCells [])
              | None => fret (VCells [])
              end)
             (fun _ => fret (VCells []))
     end).

Definition get_all_a_stocks : F value :=
  ftry
    (df <~ ak stock_zh_a_spot_em "" ;;
     match df with
     | Some d =>
         if negb (empty d)
         then codes <~ column_tolist d "代码" ;; fret (VCells codes)
         else fret (VCells [])
     | None => fret (VCells [])
     end)
    (fun _ => fret (VCells [])).

(** The dictionary [fetch_stock_data] returns, as far as
    [fetch_multiple_stocks] looks into it: the entry [basic_info], which
    is the dictionary of [get_stock_info] when the data type asks for
    it, and the other entries. *)
Record StockData : Type := mkStockData {
  basic_info : option pydict;
  other_entries : pydict
}.

(** The dictionary [fetch_multiple_stocks] returns. *)
Record Batch : Type := mkBatch {
  fetch_time : string;
  stocks : list StockData;
  success_count : Z;
  fail_count : Z
}.

(** An entry of the batch whose basic information holds no error. *)
Definition no_error (sd : StockData) : Prop :=
  match basic_info sd with
  | Some d => dict_find d "error" = None
  | None => True
  end.

Section Batch.

(** [fetch_stock_data(code, data_type, use_cache=True)], which returns
    a dictionary or raises; and the reading of the clock. *)
Variable fetch_stock_data : string -> string -> F StockData.
Variable now : string.

(** The loop of [fetch_multiple_stocks] over the codes. *)
Fixpoint batch_loop (codes : list string) (data_type : string) (result : Batch)
  : F Batch :=
  match codes with
  | [] => fret result
  | code :: rest =>
      result <~ ftry
                  (stock_data <~ fetch_stock_data code data_type ;;
                   let info := match basic_info stock_data with
                               | Some d => d
                               | None => []
                               end in
                   if negb (is_some (dict_find info "error"))
                   then fret (mkBatch (fetch_time result)
                                      (stocks result ++ [stock_data])
                                      (success_count result + 1)
                                      (fail_count result))
                   else fret (mkBatch (fetch_time result) (stocks result)
                                      (success_count result)
                                      (fail_count result + 1)))
                  (fun _ => fret (mkBatch (fetch_time result) (stocks result)
                                          (success_count result)
                                          (fail_count result + 1))) ;;
      batch_loop rest data_type result
  end.

Definition fetch_multiple_stocks (codes : list string) (data_type : string) : F Batch :=
  batch_loop codes data_type (mkBatch now [] 0 0).

End Batch.

End Fetcher.

(** Example answers of the provider. *)

Module FetcherExamples.

Import Fetcher.

(** Five quarterly reports. *)
Definition reports : DataFrame :=
  mkDataFrame None ["REPORT_DATE"]
    [ [("REPORT_DATE", CStr "2024-12-31")];
      [("REPORT_DATE", CStr "2024-09-30")];
      [("REPORT_DATE", CStr "2024-06-30")];
      [("REPORT_DATE", CStr "2024-03-31")];
      [("REPORT_DATE", CStr "2023-12-31")] ].

(** The provider answers the request for the balance sheet and for the
    financial abstract with the reports, fails on the income statement,
    and has the two example rows as market snapshot. *)
Definition some_answers : world :=
  fun ep =>
    match ep with
    | stock_balance_sheet_by_report_em => [fun _ => inr (Some reports)]
    | stock_profit_sheet_by_report_em => [fun _ => inl (ProviderError "timeout")]
    | stock_financial_abstract => [fun _ => inr (Some reports)]
    | stock_zh_a_spot_em => [fun _ => inr (Some Examples.two_rows)]
    | _ => []
    end.

End FetcherExamples.


(** * Properties *)

Import StockScreener Spec.

(** ** Comparison of floats *)

Lemma SFcompare_refl_some (f : spec_float) :
  f <> S754_nan -> SFcompare f f = Some Eq.
Proof.
  destruct f as [s|s| |s m e]; simpl; intros H; try congruence.
  - destruct s; reflexivity.
  - destruct s; rewrite Z.compare_refl, Pos.compare_cont_refl; reflexivity.
Qed.

Lemma is_nan_false_iff (x : float) :
  PrimFloat.is_nan x = false <-> Prim2SF x <> S754_nan.
Proof.
  unfold PrimFloat.is_nan. rewrite FloatAxioms.eqb_spec. unfold SFeqb. split.
  - intros H E. rewrite E in H. simpl in H. discriminate.
  - intros H. rewrite SFcompare_refl_some by assumption. reflexivity.
Qed.


Lemma SFcompare_antisym (f g : spec_float) :
  f <> S754_nan -> g <> S754_nan ->
  exists c, SFcompare f g = Some c /\ SFcompare g f = Some (CompOpp c).
Proof.
  intros Hf Hg.
  destruct f as [s|s| |s m e]; destruct g as [s'|s'| |s' m' e']; try congruence;
    simpl; eexists; (split; [reflexivity|]);
    try (destruct s; destruct s'; reflexivity);
    try (destruct s; reflexivity); try (destruct s'; reflexivity).
  assert (Hm : Pos.compare_cont Eq m' m = CompOpp (Pos.compare_cont Eq m m'))
    by (rewrite Pos.compare_cont_antisym; reflexivity).
  rewrite (Z.compare_antisym e e'), Hm.
  destruct s, s'; try reflexivity;
    destruct (e ?= e')%Z; simpl; try reflexivity;
    destruct (Pos.compare_cont Eq m m'); reflexivity.
Qed.

Lemma leb_total (x y : float) :
  PrimFloat.is_nan x = false -> PrimFloat.is_nan y = false ->
  PrimFloat.leb x y = true \/ PrimFloat.leb y x = true.
Proof.
  rewrite !is_nan_false_iff, !FloatAxioms.leb_spec. intros Hx Hy.
  destruct (SFcompare_antisym _ _ Hx Hy) as (c & H1 & H2).
  unfold SFleb. rewrite H1, H2. destruct c; simpl; auto.
Qed.

(** ** The store *)

Lemma grows_refl s : grows s s.
Proof. repeat split; auto. exists []. now rewrite app_nil_r. Qed.

Lemma grows_length s0 s : grows s0 s -> List.length (heap s0) <= List.length (heap s).
Proof. intros [[extra E] _]. rewrite E, length_app. lia. Qed.

Lemma grows_frame s0 s l : grows s0 s -> l < List.length (heap s0) -> frame s l = frame s0 l.
Proof. intros [[extra E] _] Hl. unfold frame. rewrite E. now apply app_nth1. Qed.

Lemma new_frame_run d s :
  exists s', new_frame d s = (inr (List.length (heap s)), s') /\
    grows s s' /\ frame s' (List.length (heap s)) = d /\
    List.length (heap s') = S (List.length (heap s)).
Proof.
  eexists. split; [reflexivity|]. repeat split; simpl.
  - now exists [d].
  - unfold frame; simpl. now rewrite nth_middle.
  - rewrite length_app. simpl. lia.
Qed.

Lemma grows_trans s0 s1 s2 : grows s0 s1 -> grows s1 s2 -> grows s0 s2.
Proof.
  intros ([e1 E1] & A1 & B1 & C1) ([e2 E2] & A2 & B2 & C2).
  repeat split; try congruence.
  exists (e1 ++ e2). now rewrite E2, E1, app_assoc.
Qed.

Lemma list_set_app_r {A} (h extra : list A) l d :
  List.length h <= l -> list_set (h ++ extra) l d = h ++ list_set extra (l - List.length h) d.
Proof.
  revert l. induction h as [|a h IH]; intros l Hl; simpl.
  - now rewrite Nat.sub_0_r.
  - destruct l as [|l]; simpl in *; [lia|]. f_equal. apply IH. lia.
Qed.

Lemma nth_list_set {A} (h : list A) l d def :
  l < List.length h -> nth l (list_set h l d) def = d.
Proof.
  revert l. induction h as [|a h IH]; intros l Hl; simpl in *; [lia|].
  destruct l; simpl; [reflexivity|]. apply IH. lia.
Qed.

Lemma length_list_set {A} (h : list A) l d : List.length (list_set h l d) = List.length h.
Proof.
  revert l. induction h as [|a h IH]; intros l; simpl; [reflexivity|].
  destruct l; simpl; auto.
Qed.

Lemma set_frame_run s0 s l d :
  grows s0 s -> List.length (heap s0) <= l -> l < List.length (heap s) ->
  exists s', set_frame l d s = (inr tt, s') /\ grows s0 s' /\ frame s' l = d /\
    List.length (heap s') = List.length (heap s).
Proof.
  intros ([extra E] & A & B & C) Hl Hl'.
  eexists. split; [reflexivity|]. repeat split; simpl; auto.
  - rewrite E, list_set_app_r by assumption. eauto.
  - unfold frame; simpl. now apply nth_list_set.
  - apply length_list_set.
Qed.

(** ** Runs that return *)

Lemma returns_ret {A} (a : A) s (Q : A -> state -> Prop) :
  Q a s -> returns (ret a) s Q.
Proof. intros H. exists a, s. auto. Qed.

Lemma returns_bind {A B} (m : M A) (k : A -> M B) s (Q : B -> state -> Prop) :
  returns m s (fun a s' => returns (k a) s' Q) -> returns (bind m k) s Q.
Proof.
  intros (a & s' & E & b & s'' & E' & H). exists b, s''. split; [|assumption].
  unfold bind. now rewrite E.
Qed.

Lemma returns_weaken {A} (m : M A) s (Q Q' : A -> state -> Prop) :
  returns m s Q -> (forall a s', Q a s' -> Q' a s') -> returns m s Q'.
Proof. intros (a & s' & E & H) W. exists a, s'. auto. Qed.

Lemma returns_get_frame l s (Q : DataFrame -> state -> Prop) :
  Q (frame s l) s -> returns (get_frame l) s Q.
Proof. intros H. exists (frame s l), s. auto. Qed.

Lemma returns_new_frame d s0 s (Q : loc -> state -> Prop) :
  grows s0 s ->
  (forall s', grows s0 s' -> List.length (heap s') = S (List.length (heap s)) ->
              frame s' (List.length (heap s)) = d ->
              (forall l, l < List.length (heap s) -> frame s' l = frame s l) ->
              Q (List.length (heap s)) s') ->
  returns (new_frame d) s Q.
Proof.
  intros G H. destruct (new_frame_run d s) as (s' & E & G' & F & L).
  exists (List.length (heap s)), s'. split; [assumption|].
  apply H; auto.
  - eapply grows_trans; eassumption.
  - intros l Hl. now apply grows_frame.
Qed.

Lemma nth_list_set_other {A} (h : list A) l l' d def :
  l' <> l -> nth l' (list_set h l d) def = nth l' h def.
Proof.
  revert l l'. induction h as [|a h IH]; intros l l' Hn; simpl; [reflexivity|].
  destruct l, l'; simpl; try reflexivity; try congruence. apply IH. congruence.
Qed.

Lemma returns_set_frame l d s0 s (Q : unit -> state -> Prop) :
  grows s0 s -> List.length (heap s0) <= l -> l < List.length (heap s) ->
  (forall s', grows s0 s' -> List.length (heap s') = List.length (heap s) ->
              frame s' l = d ->
              (forall l', l' <> l -> frame s' l' = frame s l') ->
              Q tt s') ->
  returns (set_frame l d) s Q.
Proof.
  intros G Hl Hl' H. destruct (set_frame_run s0 s l d G Hl Hl') as (s' & E & G' & F & L).
  exists tt, s'. split; [assumption|]. apply H; auto.
  intros l' Hn. unfold set_frame in E. inversion E; subst s'; clear E.
  unfold frame; simpl. now apply nth_list_set_other.
Qed.

(** ** The filter pipeline computes the specified table *)

Section FilterRuns.
Context {RT : Runtime}.

Lemma filter_filter {A} (p q : A -> bool) (l : list A) :
  filter q (filter p l) = filter (fun x => p x && q x) l.
Proof.
  induction l as [|a l IH]; simpl; [reflexivity|].
  destruct (p a); simpl; [destruct (q a); simpl; now rewrite IH | exact IH].
Qed.

Lemma filter_true {A} (p : A -> bool) (l : list A) :
  (forall x, p x = true) -> filter p l = l.
Proof.
  intros H. induction l as [|a l IH]; simpl; [reflexivity|]. now rewrite H, IH.
Qed.

Ltac post := refine (conj _ (conj _ (conj _ _))).

Lemma select_select d p q :
  select (select d p) q = select d (fun r => p r && q r).
Proof. unfold select; simpl. now rewrite filter_filter. Qed.

Lemma select_ext d p q : (forall r, p r = q r) -> select d p = select d q.
Proof. intros H. unfold select. f_equal. now apply filter_ext. Qed.

Lemma numeric_filter_returns s df column lo hi :
  df < List.length (heap s) ->
  returns (_apply_numeric_filter df column lo hi) s
    (fun l' s' =>
       grows s s' /\ l' < List.length (heap s') /\
       (l' = df \/ List.length (heap s) <= l') /\
       frame s' l' = range_filter (frame s df) column lo hi).
Proof.
  intros Hdf. unfold _apply_numeric_filter, range_filter.
  apply returns_bind, returns_get_frame.
  destruct (str_in column (columns (frame s df))) eqn:Hc; simpl.
  2:{ apply returns_ret. post; auto using grows_refl. }
  apply returns_bind.
  destruct lo as [lo|].
  - apply returns_bind, returns_get_frame.
    eapply returns_new_frame; [apply grows_refl|]. intros s1 G1 L1 F1 O1.
    apply returns_bind.
    destruct hi as [hi|].
    + apply returns_bind, returns_get_frame.
      eapply returns_new_frame; [exact G1|]. intros s2 G2 L2 F2 O2.
      repeat apply returns_ret. post; auto; try lia.
      rewrite F2, F1, select_select. reflexivity.
    + repeat apply returns_ret. post; auto; try lia.
      rewrite F1. apply select_ext. intros r. unfold Spec.within.
      now rewrite andb_true_r.
  - apply returns_ret. apply returns_bind.
    destruct hi as [hi|].
    + apply returns_bind, returns_get_frame.
      eapply returns_new_frame; [apply grows_refl|]. intros s1 G1 L1 F1 O1.
      repeat apply returns_ret. post; auto; try lia.
    + repeat apply returns_ret. post; auto using grows_refl.
      unfold select. destruct (frame s df) as [n c r]; simpl. f_equal.
      symmetry. now apply filter_true.
Qed.


Lemma range_filter_nf name cols rws p c lo hi :
  range_filter (mkDataFrame name cols (filter p rws)) c lo hi =
  mkDataFrame name cols (filter (fun r => p r && Spec.range_ok cols c lo hi r) rws).
Proof.
  unfold range_filter, Spec.range_ok, select; simpl.
  destruct (str_in c cols).
  - now rewrite filter_filter.
  - f_equal. apply filter_ext. intros r. now rewrite andb_true_r.
Qed.

Lemma label_in_map c cols : in_columns c (map LStr cols) = str_in c cols.
Proof.
  unfold in_columns, str_in. induction cols as [|a cols IH]; simpl; [reflexivity|].
  now rewrite IH.
Qed.

Lemma find_column_some cols cands c :
  _find_column (map LStr cols) cands = Some c -> str_in c cols = true /\ In c cands.
Proof.
  induction cands as [|a cands IH]; simpl; [discriminate|].
  rewrite label_in_map. destruct (str_in a cols) eqn:E.
  - intros H; inversion H; subst. auto.
  - intros H. destruct (IH H). auto.
Qed.

Lemma roe_alias_nonempty c : In c ROE_ALIASES -> String.eqb c "" = false.
Proof.
  simpl. intros [H|[H|[H|[]]]]; subst; reflexivity.
Qed.

Lemma cell_at_set_cell c v r : cell_at (set_cell c v r) c = v.
Proof.
  unfold cell_at. induction r as [|[k x] r IH]; simpl.
  - now rewrite String.eqb_refl.
  - destruct (String.eqb k c) eqn:E; simpl.
    + now rewrite String.eqb_refl.
    + now rewrite E.
Qed.

Lemma cell_at_set_cell_other c c' v r :
  c' <> c -> cell_at (set_cell c v r) c' = cell_at r c'.
Proof.
  intros Hn. unfold cell_at. induction r as [|[k x] r IH]; simpl.
  - apply String.eqb_neq in Hn. rewrite String.eqb_sym in Hn. now rewrite Hn.
  - destruct (String.eqb k c) eqn:E; simpl.
    + apply String.eqb_eq in E. subst k.
      apply String.eqb_neq in Hn. rewrite String.eqb_sym in Hn. now rewrite Hn.
    + destruct (String.eqb k c'); [reflexivity | exact IH].
Qed.

Lemma filter_map {A B} (g : A -> B) (q : B -> bool) (l : list A) :
  filter q (map g l) = map g (filter (fun a => q (g a)) l).
Proof.
  induction l as [|a l IH]; simpl; [reflexivity|].
  destruct (q (g a)); simpl; now rewrite IH.
Qed.

Lemma str_in_app_self c cols : str_in c (cols ++ [c]) = true.
Proof.
  unfold str_in. rewrite existsb_app. simpl. rewrite String.eqb_refl.
  now rewrite orb_true_r.
Qed.

Local Arguments _find_column : simpl never.

Lemma apply_filters_returns s df filters :
  returns (apply_filters df filters) s
    (fun l' s' =>
       grows s s' /\ List.length (heap s) <= l' /\ l' < List.length (heap s') /\
       frame s' l' = filtered (frame s df) filters).
Proof.
  unfold apply_filters.
  apply returns_bind, returns_get_frame.
  destruct (frame s df) as [name cols rws] eqn:Ed.
  apply returns_bind.
  eapply returns_new_frame; [apply grows_refl|]. intros s1 G1 L1 F1 O1.
  rewrite <- (filter_true (fun _ => true) rws) in F1 by reflexivity.
  (* PE *)
  apply returns_bind. eapply returns_weaken;
    [apply numeric_filter_returns; lia|]. intros l2 s2 (G2 & L2 & A2 & F2).
  rewrite F1, range_filter_nf in F2.
  pose proof (grows_length _ _ G2) as Len2.
  pose proof (grows_trans _ _ _ G1 G2) as G02.
  (* PB *)
  apply returns_bind. eapply returns_weaken;
    [apply numeric_filter_returns; lia|]. intros l3 s3 (G3 & L3 & A3 & F3).
  rewrite F2, range_filter_nf in F3.
  pose proof (grows_length _ _ G3) as Len3.
  pose proof (grows_trans _ _ _ G02 G3) as G03.
  (* ROE *)
  apply returns_bind.
  apply returns_weaken with (Q := fun l4 s4 =>
    grows s s4 /\ List.length (heap s) <= l4 /\ l4 < List.length (heap s4) /\
    frame s4 l4 = mkDataFrame name cols
      (filter (fun r => ((true && Spec.range_ok cols "市盈率-动态" (dict_get filters "pe_min") (dict_get filters "pe_max") r)
                        && Spec.range_ok cols "市净率" (dict_get filters "pb_min") (dict_get filters "pb_max") r)
                        && Spec.roe_ok cols filters r) rws)).
  { unfold Spec.roe_ok.
    destruct (dict_get filters "roe_min") as [lo|] eqn:Eroe; simpl.
    - apply returns_bind, returns_get_frame. rewrite F3. unfold frame_columns; simpl.
      destruct (_find_column (map LStr cols) ROE_ALIASES) as [c|] eqn:Ef.
      + destruct (find_column_some _ _ _ Ef) as [Hin Hal].
        rewrite (roe_alias_nonempty _ Hal); simpl.
        eapply returns_weaken; [apply numeric_filter_returns; lia|].
        intros l4 s4 (G4 & L4 & A4 & F4).
        rewrite F3, range_filter_nf in F4.
        pose proof (grows_length _ _ G4).
        post; [eapply grows_trans; eassumption | lia | assumption |].
        rewrite F4. f_equal. apply filter_ext. intros r.
        unfold Spec.range_ok. rewrite Hin. unfold Spec.within.
        now rewrite andb_true_r.
      + apply returns_ret. post; auto; try lia.
        rewrite F3. f_equal. apply filter_ext. intros r. now rewrite andb_true_r.
    - apply returns_ret. post; auto; try lia.
      rewrite F3. f_equal. apply filter_ext. intros r. now rewrite andb_true_r. }
  intros l4 s4 (G4 & Lo4 & L4 & F4).
  (* debt ratio *)
  apply returns_bind. eapply returns_weaken;
    [apply numeric_filter_returns; lia|]. intros l5 s5 (G5 & L5 & A5 & F5).
  rewrite F4, range_filter_nf in F5.
  pose proof (grows_length _ _ G5) as Len5.
  pose proof (grows_trans _ _ _ G4 G5) as G05.
  (* market capitalisation *)
  apply returns_bind, returns_get_frame. rewrite F5; simpl.
  unfold filtered; simpl. unfold Spec.cap_applied, Spec.with_cap, Spec.cap_applied, Spec.bounded.
  destruct (str_in "总市值" cols) eqn:Ecap; simpl.
  2:{ apply returns_ret. post; auto; try lia.
      rewrite F5, map_id. f_equal. apply filter_ext. intros r.
      unfold Spec.retained, Spec.cap_ok. rewrite Ecap. now rewrite andb_true_r. }
  destruct (is_some (dict_get filters "market_cap_min")
            || is_some (dict_get filters "market_cap_max")) eqn:Eb; simpl.
  2:{ apply returns_ret. post; auto; try lia.
      rewrite F5, map_id. f_equal. apply filter_ext. intros r.
      unfold Spec.retained, Spec.cap_ok. rewrite Ecap.
      apply orb_false_elim in Eb. destruct Eb as [E1 E2].
      destruct (dict_get filters "market_cap_min"); [discriminate|].
      destruct (dict_get filters "market_cap_max"); [discriminate|].
      unfold Spec.within. now rewrite !andb_true_r. }
  apply returns_bind.
  eapply returns_set_frame; [exact G05 | lia | lia |]. intros s6 G6 L6 F6 O6.
  eapply returns_weaken; [apply numeric_filter_returns; lia|].
  intros l7 s7 (G7 & L7 & A7 & F7).
  pose proof (grows_length _ _ G7).
  post; [eapply grows_trans; eassumption | lia | assumption |].
  rewrite F7, F6. unfold range_filter, setitem, select; simpl.
  assert (Hcol : str_in "总市值_亿"
            (if str_in "总市值_亿" cols then cols else cols ++ ["总市值_亿"]) = true).
  { destruct (str_in "总市值_亿" cols) eqn:E; [exact E | apply str_in_app_self]. }
  rewrite Hcol. f_equal.
  - destruct (str_in "总市值_亿" cols); reflexivity.
  - rewrite filter_map, filter_filter. f_equal. apply filter_ext. intros r.
    unfold Spec.value at 1. rewrite cell_at_set_cell. simpl.
    unfold Spec.retained, Spec.cap_ok. rewrite Ecap. reflexivity.
Qed.

End FilterRuns.

(** ** The filter pipeline *)

Section FilterClaims.

Context {RT : Runtime}.

Local Arguments _find_column : simpl never.









Lemma find_column_none cols cands :
  (forall a, In a cands -> str_in a cols = false) ->
  _find_column (map LStr cols) cands = None.
Proof.
  induction cands as [|a cands IH]; intros H; [reflexivity|].
  unfold _find_column; fold _find_column.
  rewrite label_in_map, (H a (or_introl eq_refl)). apply IH.
  intros b Hb. apply H. now right.
Qed.

(** C7: on a dataset with no column under any of the known ROE aliases,
    the filter specification that holds only [roe_min] returns a table
    equal to the dataset: all rows are retained. *)
Theorem roe_min_without_roe_column (s : state) (df : loc) (v : float) :
  (forall a, In a ROE_ALIASES -> str_in a (columns (frame s df)) = false) ->
  exists l' s',
    apply_filters df [("roe_min", Some v)] s = (inr l', s') /\
    rows (frame s' l') = rows (frame s df) /\
    frame s' l' = frame s df.
Proof.
  intros H.
  destruct (apply_filters_returns s df [("roe_min", Some v)]) as (l' & s' & E & _ & _ & _ & F).
  exists l', s'. split; [exact E|].
  assert (F' : frame s' l' = frame s df).
  { rewrite F. pose proof (find_column_none _ _ H) as Hf.
    destruct (frame s df) as [name cols rws]. simpl in Hf.
    unfold filtered, with_cap, cap_applied, retained, range_ok, roe_ok, cap_ok; simpl.
    rewrite Hf.
    rewrite andb_false_r. simpl. rewrite map_id. f_equal.
    apply filter_true. intros r.
    destruct (str_in "市盈率-动态" cols), (str_in "市净率" cols),
      (str_in "资产负债率" cols), (str_in "总市值" cols); reflexivity. }
  split; [now rewrite F' | exact F'].
Qed.

End FilterClaims.


Lemma roe_min_without_roe_column_witness :
  exists l' s',
    apply_filters (RT := Reference.runtime) 0 [("roe_min", Some 10%float)]
      (mkState [Examples.no_roe] (Some 0) [] []) = (inr l', s') /\
    rows (frame s' l') = rows Examples.no_roe /\
    frame s' l' = Examples.no_roe.
Proof.
  apply (roe_min_without_roe_column (RT := Reference.runtime)
           (mkState [Examples.no_roe] (Some 0) [] []) 0 10%float).
  simpl. intros a [H|[H|[H|[]]]]; subst; reflexivity.
Defined.

(** ** The scoring heuristic *)

Section ScoreClaims.

Context {RT : Runtime}.

(** C8: whatever the row holds (numbers of any size or sign, missing
    values, text), the composite score lies in [0, 100]. *)
Theorem calculate_score_range (row : Series) :
  (0 <= calculate_score row <= 100)%Z.
Proof.
  unfold calculate_score. cbv zeta.
  match goal with
  | |- (0 <= Z.max 0 (Z.min 100 ?sc) <= 100)%Z => generalize sc
  end.
  intros sc. lia.
Qed.

(** The columns of [row.index.to_frame()] are not the labels of the
    row: when the index has no name, the only column is numbered 0, and
    no alias is found there. *)
Lemma roe_column_not_found (row : Series) :
  index_name row = None ->
  _find_column (index_to_frame_columns row) ROE_ALIASES = None.
Proof.
  intros H. unfold index_to_frame_columns. rewrite H. reflexivity.
Qed.

(** Hence the score of a row of a table whose column index has no name
    does not depend on the cells under the ROE aliases. *)
Lemma score_ignores_roe (d : DataFrame) (r : record) (c : string) (v : cell) :
  columns_name d = None -> In c ROE_ALIASES ->
  calculate_score (row_series d (set_cell c v r)) = calculate_score (row_series d r).
Proof.
  intros Hn Hc.
  assert (G : forall k, k <> c ->
            series_get (row_series d (set_cell c v r)) k (CNum nan)
            = series_get (row_series d r) k (CNum nan)).
  { intros k Hk. unfold series_get, row_series; simpl.
    induction (columns d) as [|a l IH]; simpl; [reflexivity|].
    destruct (String.eqb a k) eqn:E; [|exact IH].
    apply String.eqb_eq in E. subst a. now rewrite cell_at_set_cell_other. }
  unfold calculate_score, _get_numeric_value.
  rewrite !roe_column_not_found by (simpl; assumption).
  simpl in Hc.
  rewrite !G by (destruct Hc as [H|[H|[H|[]]]]; subst c; discriminate).
  reflexivity.
Qed.

(** C1: on the two example rows the program gives A the score 78 and B
    the score 35: the contributions of PE, PB and price change are as
    the example states, and the return on equity contributes nothing.
    The bound [pe_max = 20] retains only A. *)
Theorem example_scores :
  calculate_score (row_series Examples.two_rows Examples.row_A) = 78%Z /\
  calculate_score (row_series Examples.two_rows Examples.row_B) = 35%Z /\
  exists l' s',
    apply_filters 0 [("pe_max", Some 20%float)]
      (mkState [Examples.two_rows] (Some 0) [] []) = (inr l', s') /\
    rows (frame s' l') = [Examples.row_A].
Proof.
  split; [reflexivity|]. split; [reflexivity|].
  eexists _, _. split; reflexivity.
Qed.

(** The ROE rule itself is as the example expects: when the column
    index is named after an alias, so that the alias is found, the
    scores are 93 and 30. *)
Lemma example_scores_named_index :
  calculate_score (row_series Examples.two_rows_named Examples.row_A) = 93%Z /\
  calculate_score (row_series Examples.two_rows_named Examples.row_B) = 30%Z.
Proof. split; reflexivity. Qed.

End ScoreClaims.

(** ** The numeric normalizer of the data fetcher *)

Section NormalizerClaims.

Context {RT : Runtime}.

Import DataFetcher.



End NormalizerClaims.



(** ** The screening run *)

Section ScreenClaims.

Context {RT : Runtime}.

Lemma fst_lift {A} (r : exn + A) (s : state) : fst (lift r s) = r.
Proof. destruct r; reflexivity. Qed.

(** [screen] is the sorted set, then the limit, then the projection. *)
Lemma screen_ranked scope filters sort_by top_n s :
  screen scope filters sort_by top_n s =
  (o <- ranked scope filters sort_by ;;
   match o with
   | None => ret []
   | Some df =>
       df <- limit df top_n ;;
       d <- get_frame df ;;
       lift (to_results d)
   end) s.
Proof.
  unfold screen, ranked, bind.
  destruct (scored scope filters s) as [[e|[df|]] s1]; try reflexivity.
  destruct (rank df sort_by s1) as [[e|l] s2]; reflexivity.
Qed.


Lemma screen_limited scope filters sort_by top_n s df s' :
  ranked scope filters sort_by s = (inr (Some df), s') ->
  fst (screen scope filters sort_by top_n s) =
  to_results (if top_n_truthy top_n
              then match top_n with
                   | Some n => head (frame s' df) n
                   | None => frame s' df
                   end
              else frame s' df).
Proof.
  intros H. rewrite screen_ranked. unfold bind at 1. rewrite H.
  unfold limit. destruct (top_n_truthy top_n) eqn:T.
  - destruct top_n as [n|]; [|discriminate].
    unfold bind, get_frame; simpl. rewrite fst_lift.
    unfold frame at 1; simpl. now rewrite nth_middle.
  - unfold bind, ret, get_frame; simpl. now rewrite fst_lift.
Qed.


(** A negative [top_n] is true as a Python value too: [head] then
    leaves out the last rows. *)
Lemma negative_top_n scope filters sort_by s df s' (n : Z) :
  ranked scope filters sort_by s = (inr (Some df), s') -> (n < 0)%Z ->
  fst (screen scope filters sort_by (Some n) s) =
  results_of_rows
    (map (row_series (frame s' df))
         (firstn (List.length (rows (frame s' df)) - Z.to_nat (- n))
                 (rows (frame s' df)))).
Proof.
  intros H Hn. rewrite (screen_limited _ _ _ (Some n) _ _ _ H). simpl.
  destruct (Z.eqb_spec n 0); [lia|]. simpl.
  unfold to_results, head; simpl.
  destruct (Z.leb_spec 0 n); [lia | reflexivity].
Qed.

Lemma load_unknown_scope (scope : string) :
  unknown_scope scope = true ->
  load_stock_data scope None = load_stock_data "all" None.
Proof.
  unfold unknown_scope. intros H.
  apply andb_prop in H. destruct H as [H H3].
  apply andb_prop in H. destruct H as [H1 H2].
  apply negb_true_iff in H1, H2, H3.
  unfold load_stock_data. rewrite H1, H3.
  destruct (index_code scope INDEX_CODE_MAP); [discriminate|]. reflexivity.
Qed.

(** The whole market, when the provider has no table to give. *)
Lemma load_all_empty (s : state) :
  match spot_feed s with
  | inr d :: _ => empty d = true
  | _ => True
  end ->
  exists l s', load_stock_data "all" None s = (inr l, s') /\
               empty (frame s' l) = true.
Proof.
  unfold load_stock_data, try_except, bind, ak_stock_zh_a_spot_em; simpl.
  destruct (spot_feed s) as [|[e|d] feed]; simpl; intros H.
  - eexists _, _. split; [reflexivity|]. unfold frame; simpl.
    now rewrite nth_middle.
  - eexists _, _. split; [reflexivity|]. unfold frame; simpl.
    now rewrite nth_middle.
  - eexists _, _. split; [reflexivity|]. unfold frame; simpl.
    now rewrite nth_middle.
Qed.

(** C3 as the code has it: a scope token that is neither the keyword of
    the whole market, nor an index short name, nor a code list is
    resolved as the whole market.  The run is the run of the keyword
    "all"; its result is the empty list, without error, when the
    provider fails or answers with an empty table. *)
Theorem unknown_scope_is_whole_market (scope : string) (filters : option Dict)
    (sort_by : string) (top_n : option Z) (s : state) :
  unknown_scope scope = true ->
  screen scope filters sort_by top_n s = screen "all" filters sort_by top_n s /\
  (match spot_feed s with
   | inr d :: _ => empty d = true
   | _ => True
   end -> fst (screen scope filters sort_by top_n s) = inr []).
Proof.
  intros H.
  assert (E : screen scope filters sort_by top_n s = screen "all" filters sort_by top_n s).
  { unfold screen, scored.
    assert (H3 : startswith scope "custom:" = false).
    { unfold unknown_scope in H. apply andb_prop in H. destruct H as [_ H].
      now apply negb_true_iff in H. }
    rewrite H3, (load_unknown_scope _ H). reflexivity. }
  split; [exact E|].
  intros Hfeed. rewrite E. unfold screen, scored. simpl startswith. cbv iota.
  destruct (load_all_empty s Hfeed) as (l & s' & Hl & He).
  unfold bind at 1. unfold bind at 1. rewrite Hl.
  unfold bind at 1. unfold get_frame at 1. rewrite He. reflexivity.
Qed.

End ScreenClaims.

(** An unknown scope keyword on a provider that answers with the two
    example rows: both rows are screened. *)
Lemma unknown_scope_counterexample :
  unknown_scope "nasdaq" = true /\
  exists a b,
    fst (screen (RT := Reference.runtime) "nasdaq" None "score" None
           (Examples.fresh Examples.two_rows)) = inr [a; b] /\
    r_code a = CStr "A" /\ r_code b = CStr "B".
Proof.
  split; [reflexivity|]. eexists _, _. split; [reflexivity|]. split; reflexivity.
Qed.

Lemma unknown_scope_is_whole_market_witness :
  screen (RT := Reference.runtime) "nasdaq" None "score" None
    (Examples.fresh Examples.two_rows)
  = screen (RT := Reference.runtime) "all" None "score" None
      (Examples.fresh Examples.two_rows) /\
  fst (screen (RT := Reference.runtime) "nasdaq" None "score" None
         (Examples.fresh empty_frame)) = inr [].
Proof.
  split.
  - apply (unknown_scope_is_whole_market (RT := Reference.runtime)
             "nasdaq" None "score" None (Examples.fresh Examples.two_rows)).
    reflexivity.
  - apply (unknown_scope_is_whole_market (RT := Reference.runtime)
             "nasdaq" None "score" None (Examples.fresh empty_frame));
      reflexivity.
Defined.


(** ** The loaded table and the projection *)

Section StoreClaims.

Context {RT : Runtime}.

Lemma new_frame_grows d s : grows s (snd (new_frame d s)).
Proof. destruct (new_frame_run d s) as (s' & E & G & _). now rewrite E. Qed.

Lemma sort_values_grows df c asc s : grows s (snd (sort_values df c asc s)).
Proof.
  unfold sort_values, bind, get_frame.
  destruct (sort_values_rows c asc (rows (frame s df))) as [e|sorted]; simpl.
  - apply grows_refl.
  - apply (new_frame_grows _ s).
Qed.

Lemma rank_grows df sort_by s : grows s (snd (rank df sort_by s)).
Proof.
  unfold rank.
  repeat match goal with
         | |- context [if ?b then _ else _] => destruct b
         end;
    try apply sort_values_grows; try apply grows_refl;
    unfold bind, get_frame;
    repeat match goal with
         | |- context [if ?b then _ else _] => destruct b
         end;
    try apply sort_values_grows; apply grows_refl.
Qed.

Lemma limit_grows df top_n s : grows s (snd (limit df top_n s)).
Proof.
  unfold limit. destruct (top_n_truthy top_n); [|apply grows_refl].
  destruct top_n as [n|]; [|apply grows_refl].
  unfold bind, get_frame. apply (new_frame_grows _ s).
Qed.

(** After the scores are in, the run only makes new table objects. *)
Lemma screen_after_scores scope filters sort_by top_n s o s1 :
  scored scope filters s = (inr o, s1) ->
  grows s1 (snd (screen scope filters sort_by top_n s)).
Proof.
  intros H. unfold screen. unfold bind at 1. rewrite H.
  destruct o as [df|]; [|apply grows_refl].
  unfold bind at 1.
  pose proof (rank_grows df sort_by s1) as G1.
  destruct (rank df sort_by s1) as [[e|l] s2]; simpl in *; [exact G1|].
  unfold bind at 1.
  pose proof (limit_grows l top_n s2) as G2.
  destruct (limit l top_n s2) as [[e|l'] s3]; simpl in *;
    [eapply grows_trans; eassumption|].
  unfold bind, get_frame.
  destruct (to_results (frame s3 l')); simpl; eapply grows_trans; eassumption.
Qed.

(** The whole market, when the provider answers with a table. *)
Lemma load_all (s : state) (d : DataFrame) (feed : list (exn + DataFrame)) :
  spot_feed s = inr d :: feed ->
  load_stock_data "all" None s =
  (inr (List.length (heap s)),
   mkState (heap s ++ [d]) (Some (List.length (heap s))) feed (cons_feed s)).
Proof.
  intros H. unfold load_stock_data, try_except, bind, ak_stock_zh_a_spot_em; simpl.
  rewrite H. reflexivity.
Qed.

(** Without a filter specification the scores are written into the
    loaded table itself. *)
Lemma scored_without_filters (s : state) (d : DataFrame) feed :
  spot_feed s = inr d :: feed -> empty d = false ->
  exists s1,
    scored "all" None s = (inr (Some (List.length (heap s))), s1) /\
    List.length (heap s) < List.length (heap s1) /\
    all_stocks_data s1 = Some (List.length (heap s)) /\
    frame s1 (List.length (heap s)) =
      setitem d "评分"
        (fun r => CNum (float_of_int (calculate_score (row_series d r)))).
Proof.
  intros H He. unfold scored. simpl startswith. cbv iota.
  unfold bind at 1. rewrite (load_all _ _ _ H).
  unfold bind at 1. unfold get_frame at 1.
  assert (F : frame (mkState (heap s ++ [d]) (Some (List.length (heap s))) feed (cons_feed s))
                    (List.length (heap s)) = d).
  { unfold frame; simpl. now rewrite nth_middle. }
  rewrite F, He. simpl filters_truthy. cbv iota.
  unfold bind at 1. unfold ret at 1.
  unfold bind at 1. unfold get_frame at 1. rewrite F, He.
  eexists. split; [reflexivity|]. simpl.
  rewrite length_list_set, length_app. simpl.
  split; [lia|]. split; [reflexivity|].
  unfold frame; simpl. apply nth_list_set. rewrite length_app; simpl; lia.
Qed.

(** With a filter specification the loaded table is left as it was:
    the scores go into the filtered copy. *)
Lemma scored_with_filters (s : state) (d : DataFrame) feed (f : Dict) :
  spot_feed s = inr d :: feed -> empty d = false -> f <> [] ->
  exists o s1,
    scored "all" (Some f) s = (inr o, s1) /\
    List.length (heap s) < List.length (heap s1) /\
    all_stocks_data s1 = Some (List.length (heap s)) /\
    frame s1 (List.length (heap s)) = d.
Proof.
  intros H He Hf. unfold scored. simpl startswith. cbv iota.
  unfold bind at 1. rewrite (load_all _ _ _ H).
  set (s0 := mkState (heap s ++ [d]) (Some (List.length (heap s))) feed (cons_feed s)).
  assert (F : frame s0 (List.length (heap s)) = d).
  { unfold frame; simpl. now rewrite nth_middle. }
  assert (L0 : List.length (heap s0) = S (List.length (heap s))).
  { simpl. rewrite length_app. simpl. lia. }
  unfold bind at 1. unfold get_frame at 1. rewrite F, He.
  assert (T : filters_truthy (Some f) = true) by (destruct f; [congruence | reflexivity]).
  rewrite T.
  destruct (apply_filters_returns s0 (List.length (heap s)) f)
    as (l' & s2 & E & G & Lo & Hi & _).
  unfold bind at 1. rewrite E.
  pose proof (grows_length _ _ G) as Len.
  assert (F2 : frame s2 (List.length (heap s)) = d).
  { rewrite (grows_frame _ _ _ G); [exact F | lia]. }
  assert (A2 : all_stocks_data s2 = Some (List.length (heap s))) by (now destruct G as (_ & -> & _)).
  unfold bind at 1. unfold get_frame at 1.
  destruct (empty (frame s2 l')).
  - eexists _, _. split; [reflexivity|]. repeat split; auto; lia.
  - eexists _, _. split; [reflexivity|]. simpl.
    rewrite length_list_set. repeat split; auto; try lia.
    unfold frame; simpl. rewrite nth_list_set_other by lia. exact F2.
Qed.

(** What a run of [screen] on the whole market leaves of the table it
    loaded: with a filter specification, the table as loaded; without
    one, the table with the score column written into it. *)
Lemma loaded_table_after_screen (s : state) (d : DataFrame) feed sort_by top_n :
  spot_feed s = inr d :: feed -> empty d = false ->
  (forall f : Dict, f <> [] ->
     let s' := snd (screen "all" (Some f) sort_by top_n s) in
     all_stocks_data s' = Some (List.length (heap s)) /\
     frame s' (List.length (heap s)) = d) /\
  (let s' := snd (screen "all" None sort_by top_n s) in
   all_stocks_data s' = Some (List.length (heap s)) /\
   frame s' (List.length (heap s)) =
     setitem d "评分"
       (fun r => CNum (float_of_int (calculate_score (row_series d r))))).
Proof.
  intros H He. split.
  - intros f Hf. cbv zeta.
    destruct (scored_with_filters s d feed f H He Hf) as (o & s1 & E & L & A & F).
    pose proof (screen_after_scores _ _ sort_by top_n _ _ _ E) as G.
    split.
    + destruct G as (_ & GA & _). exact (eq_trans GA A).
    + rewrite (grows_frame _ _ _ G) by exact L. exact F.
  - cbv zeta.
    destruct (scored_without_filters s d feed H He) as (s1 & E & L & A & F).
    pose proof (screen_after_scores _ _ sort_by top_n _ _ _ E) as G.
    split.
    + destruct G as (_ & GA & _). exact (eq_trans GA A).
    + rewrite (grows_frame _ _ _ G) by exact L. exact F.
Qed.

Lemma series_get_text (row : Series) (k : string) (s : string) (default : cell) :
  series_get row k CNone = CStr s -> series_get row k default = CStr s.
Proof.
  unfold series_get. destruct (lookup k (items row)); [trivial | discriminate].
Qed.

(** A row whose market capitalisation is a text that [float] rejects
    makes the projection raise. *)
Lemma result_of_row_raises (row : Series) (s : string) :
  series_get row "总市值" CNone = CStr s -> s <> "" -> float_of_text s = None ->
  result_of_row row = inl ValueError.
Proof.
  intros H Hs Hf. unfold result_of_row.
  rewrite (series_get_text _ _ _ (CNum 0%float) H), H. simpl.
  apply String.eqb_neq in Hs. rewrite Hs. simpl. now rewrite Hf.
Qed.

End StoreClaims.

(** C9: a run without filter specification on the two example rows.
    The screener refers to the table it loaded, and the run has added
    the score column to that very table; the same run with a filter
    specification leaves the loaded table as the provider gave it. *)
Theorem screen_writes_into_loaded_table :
  let s0 := Examples.fresh Examples.two_rows in
  let s' := snd (screen (RT := Reference.runtime) "all" None "score" None s0) in
  let s'' := snd (screen (RT := Reference.runtime) "all"
                    (Some [("pe_max", Some 20%float)]) "score" None s0) in
  all_stocks_data s' = Some 0 /\
  columns (frame s' 0) = columns Examples.two_rows ++ ["评分"] /\
  frame s' 0 <> Examples.two_rows /\
  all_stocks_data s'' = Some 0 /\
  frame s'' 0 = Examples.two_rows.
Proof.
  cbv zeta.
  destruct (loaded_table_after_screen (RT := Reference.runtime)
              (Examples.fresh Examples.two_rows) Examples.two_rows []
              "score" None eq_refl eq_refl) as [Hf [A F]].
  destruct (Hf [("pe_max", Some 20%float)] ltac:(discriminate)) as [A' F'].
  simpl List.length in A, F, A', F'.
  split; [exact A|]. split; [now rewrite F|]. split; [|split; assumption].
  rewrite F. intros E. apply (f_equal columns) in E. simpl in E. discriminate.
Qed.

(** C2: the provider's placeholder for a missing market capitalisation
    in one row.  Filtering and scoring go through, and the projection
    of that row raises [ValueError], which ends the whole run: the
    other row, which is screened when it is alone, is lost with it. *)
Theorem placeholder_aborts_screen :
  fst (screen (RT := Reference.runtime) "all" None "score" None
         (Examples.fresh Examples.cap_table)) = inl ValueError /\
  result_of_row (RT := Reference.runtime)
    (row_series Examples.cap_table Examples.row_D) = inl ValueError /\
  fst (screen (RT := Reference.runtime) "all" None "score" None
         (Examples.fresh Examples.cap_table_clean))
  = inr [mkResult (CStr "C") (CStr "") (CStr "") (CStr "") (CStr "") (CStr "")
                  (CNum 200%float) (CNum 50%float)].
Proof. split; [|split]; reflexivity. Qed.

(** ** The ranking *)

Section Sorting.

Import Reference.

Lemma key_leb_total (asc : bool) (a b : cell) :
  compat a b -> key_leb asc a b = false -> key_leb asc b a = true.
Proof.
  intros [C1 C2]. unfold key_leb.
  destruct (isna b) eqn:Nb; [discriminate|].
  destruct (isna a) eqn:Na; [reflexivity|].
  destruct a as [|x|s], b as [|y|t]; simpl in *; try discriminate.
  - destruct (leb_total x y Na Nb) as [H|H], asc; rewrite ?H; auto; intros H';
      destruct (leb_total y x Nb Na) as [G|G]; congruence.
  - exfalso. apply C1. now rewrite Na.
  - exfalso. apply C2. now rewrite Nb.
  - destruct (String.leb_total s t) as [H|H], asc; rewrite ?H; auto; intros H';
      destruct (String.leb_total t s) as [G|G]; congruence.
Qed.

Lemma comparable_compat (keys : list cell) (a b : cell) :
  comparable keys = true -> In a keys -> In b keys -> compat a b.
Proof.
  unfold comparable. intros H Ha Hb. apply negb_true_iff, andb_false_iff in H.
  split; intros [N S]; destruct H as [H|H];
    (apply not_true_iff_false in H; apply H; apply existsb_exists; eauto).
Qed.

Lemma insert_row_perm c asc r l : Permutation (r :: l) (insert_row c asc r l).
Proof.
  induction l as [|h t IH]; simpl; [reflexivity|].
  destruct (key_leb asc (cell_at r c) (cell_at h c)); [reflexivity|].
  etransitivity; [apply perm_swap|]. now apply perm_skip.
Qed.

Lemma insertion_sort_perm c asc l : Permutation l (insertion_sort c asc l).
Proof.
  induction l as [|r t IH]; simpl; [reflexivity|].
  etransitivity; [apply perm_skip, IH | apply insert_row_perm].
Qed.

Lemma insert_row_hd c asc h r t :
  key_order c asc h r -> HdRel (key_order c asc) h t ->
  HdRel (key_order c asc) h (insert_row c asc r t).
Proof.
  intros Hr Ht. destruct t as [|h' t]; simpl; [now constructor|].
  destruct (key_leb asc (cell_at r c) (cell_at h' c)); constructor; auto.
  now inversion Ht.
Qed.

Lemma insert_row_sorted c asc r l :
  (forall h, In h l -> compat (cell_at r c) (cell_at h c)) ->
  Sorted (key_order c asc) l -> Sorted (key_order c asc) (insert_row c asc r l).
Proof.
  induction l as [|h t IH]; intros C S; simpl.
  - repeat constructor.
  - destruct (key_leb asc (cell_at r c) (cell_at h c)) eqn:E.
    + constructor; [assumption|]. now constructor.
    + inversion S; subst. constructor.
      * apply IH; [|assumption]. intros h' Hh'. apply C. now right.
      * apply insert_row_hd; [|assumption].
        apply key_leb_total; [|exact E]. apply C. now left.
Qed.

Lemma insertion_sort_sorted c asc l :
  (forall a b, In a l -> In b l -> compat (cell_at a c) (cell_at b c)) ->
  Sorted (key_order c asc) (insertion_sort c asc l).
Proof.
  induction l as [|r t IH]; intros C; simpl; [constructor|].
  apply insert_row_sorted.
  - intros h Hh. apply C; [now left|]. right.
    eapply Permutation_in; [symmetry; apply insertion_sort_perm | exact Hh].
  - apply IH. intros a b Ha Hb. apply C; now right.
Qed.

Lemma stable_sort_contract : sort_contract stable_sort.
Proof.
  intros c asc l l'. unfold stable_sort.
  destruct (comparable (map (fun r => cell_at r c) l)) eqn:E; [|discriminate].
  intros H. inversion H; subst; clear H. split.
  - apply insertion_sort_perm.
  - apply insertion_sort_sorted. intros a b Ha Hb.
    apply (comparable_compat _ _ _ E); apply in_map_iff; eauto.
Qed.


End Sorting.

Section RankClaims.

Context {RT : Runtime}.



End RankClaims.



(** * Further properties of the screener *)

Import Pipeline.

(** ** The column resolver *)

Section ColumnResolver.

Lemma label_eqb_eq (a b : label) : label_eqb a b = true <-> a = b.
Proof.
  destruct a as [n|s], b as [m|t]; simpl; split; intros H; try discriminate.
  - apply Z.eqb_eq in H. now subst.
  - inversion H. apply Z.eqb_refl.
  - apply String.eqb_eq in H. now subst.
  - inversion H. apply String.eqb_refl.
Qed.

Lemma in_columns_In (c : string) (cols : list label) :
  in_columns c cols = true <-> In (LStr c) cols.
Proof.
  unfold in_columns. rewrite existsb_exists. split.
  - intros (l & Hl & E). apply label_eqb_eq in E. now subst.
  - intros H. exists (LStr c). split; [assumption|]. now apply label_eqb_eq.
Qed.

Lemma find_column_in_candidates cols cands c :
  _find_column cols cands = Some c -> In c cands.
Proof.
  induction cands as [|a cands IH]; simpl; [discriminate|].
  destruct (in_columns a cols); [intros H; inversion H; now left | auto].
Qed.

(** X1: [_find_column] returns the first candidate, in the order of the
    candidate list, that is a column: the answer is [c] exactly when
    [c] is a candidate and a column, and no candidate before it is a
    column. *)
Theorem find_column_first (cols : list label) (cands : list string) (c : string) :
  _find_column cols cands = Some c <->
  exists before after,
    cands = before ++ c :: after /\
    In (LStr c) cols /\
    forall b, In b before -> ~ In (LStr b) cols.
Proof.
  induction cands as [|a cands IH]; simpl.
  - split; [discriminate|]. intros (before & after & E & _). now destruct before.
  - destruct (in_columns a cols) eqn:Ea.
    + split.
      * intros H. inversion H; subst. exists [], cands.
        split; [reflexivity|]. split; [now apply in_columns_In|]. intros b [].
      * intros (before & after & E & Hc & Hb).
        destruct before as [|b before]; simpl in E; inversion E; subst; [reflexivity|].
        exfalso. apply (Hb b); [now left | now apply in_columns_In].
    + rewrite IH. split.
      * intros (before & after & E & Hc & Hb). exists (a :: before), after.
        split; [now rewrite E|]. split; [assumption|].
        intros b [<-|H]; [|now apply Hb].
        intros H. apply in_columns_In in H. congruence.
      * intros (before & after & E & Hc & Hb).
        destruct before as [|b before]; simpl in E; inversion E; subst.
        -- apply in_columns_In in Hc. congruence.
        -- exists before, after. split; [reflexivity|]. split; [assumption|].
           intros b' H. apply Hb. now right.
Qed.

(** X2: [_find_column] returns [None] exactly when no candidate is a
    column. *)
Theorem find_column_none_iff (cols : list label) (cands : list string) :
  _find_column cols cands = None <-> forall c, In c cands -> ~ In (LStr c) cols.
Proof.
  induction cands as [|a cands IH]; simpl.
  - split; [intros _ c [] | reflexivity].
  - destruct (in_columns a cols) eqn:Ea.
    + split; [discriminate|]. intros H. exfalso.
      apply (H a); [now left | now apply in_columns_In].
    + rewrite IH. split.
      * intros H c [<-|Hc]; [|now apply H].
        intros Hin. apply in_columns_In in Hin. congruence.
      * intros H c Hc. apply H. now right.
Qed.

(** X3: the answer of [_find_column] depends on which columns the table
    has, not on their order or repetition: the priority among several
    matching columns is that of the candidate list. *)
Theorem find_column_order_free (cols cols' : list label) (cands : list string) :
  (forall l, In l cols <-> In l cols') ->
  _find_column cols cands = _find_column cols' cands.
Proof.
  intros H. induction cands as [|a cands IH]; simpl; [reflexivity|].
  assert (E : in_columns a cols = in_columns a cols').
  { destruct (in_columns a cols) eqn:E1, (in_columns a cols') eqn:E2; try reflexivity.
    - apply in_columns_In, H, in_columns_In in E1. congruence.
    - apply in_columns_In, H, in_columns_In in E2. congruence. }
  now rewrite E, IH.
Qed.

End ColumnResolver.

(** Two tables with the columns ROE and 净资产收益率 in either order:
    the answer is 净资产收益率, the first alias, for both. *)
Lemma find_column_order_free_witness :
  _find_column [LStr "ROE"; LStr "净资产收益率"] StockScreener.ROE_ALIASES =
  _find_column [LStr "净资产收益率"; LStr "ROE"] StockScreener.ROE_ALIASES.
Proof.
  apply (find_column_order_free [LStr "ROE"; LStr "净资产收益率"]
           [LStr "净资产收益率"; LStr "ROE"] StockScreener.ROE_ALIASES).
  intros l. simpl. tauto.
Defined.

(** ** The retry wrapper and the loader *)

Section Retry.

Lemma retry_loop_success (n : nat) (errs : list exn) (d : DataFrame) rest last s :
  spot_feed s = map inl errs ++ inr d :: rest ->
  List.length errs < n ->
  retry_loop n last ak_stock_zh_a_spot_em s =
  (inr (List.length (heap s)),
   mkState (heap s ++ [d]) (all_stocks_data s) rest (cons_feed s)).
Proof.
  revert errs last s. induction n as [|n IH]; intros errs last s H L; [lia|].
  simpl. unfold try_except.
  destruct errs as [|e errs]; simpl in H.
  - unfold ak_stock_zh_a_spot_em. rewrite H. reflexivity.
  - unfold ak_stock_zh_a_spot_em at 1. rewrite H.
    assert (L' : List.length errs < n) by (simpl in L; lia).
    pose proof (IH errs (Some e)
                  (mkState (heap s) (all_stocks_data s)
                           (map inl errs ++ inr d :: rest) (cons_feed s))
                  eq_refl L') as IH'.
    simpl in IH'. exact IH'.
Qed.

Lemma retry_loop_failure (n : nat) (errs : list exn) (e : exn) rest last s :
  spot_feed s = map inl (errs ++ [e]) ++ rest ->
  List.length (errs ++ [e]) = n ->
  retry_loop n last ak_stock_zh_a_spot_em s =
  (inl e, mkState (heap s) (all_stocks_data s) rest (cons_feed s)).
Proof.
  revert errs last s. induction n as [|n IH]; intros errs last s H L.
  - rewrite length_app in L. simpl in L. lia.
  - simpl. unfold try_except.
    destruct errs as [|e' errs]; simpl in H.
    + unfold ak_stock_zh_a_spot_em at 1. rewrite H.
      simpl in L. assert (n = 0) by lia. subst n. reflexivity.
    + unfold ak_stock_zh_a_spot_em at 1. rewrite H.
      assert (L' : List.length (errs ++ [e]) = n) by (simpl in L; lia).
      pose proof (IH errs (Some e')
                    (mkState (heap s) (all_stocks_data s)
                             (map inl (errs ++ [e]) ++ rest) (cons_feed s))
                    eq_refl L') as IH'.
      simpl in IH'. exact IH'.
Qed.

(** X4: when the provider fails fewer than three times and then
    answers, [_get_all_stocks_realtime] returns that answer as a new
    table: the failures are consumed, the later answers are left, and
    no table or attribute of the screener is touched. *)
Theorem realtime_retry_success (errs : list exn) (d : DataFrame)
    (rest : list (exn + DataFrame)) (s : state) :
  spot_feed s = map inl errs ++ inr d :: rest ->
  List.length errs < 3 ->
  _get_all_stocks_realtime s =
  (inr (List.length (heap s)),
   mkState (heap s ++ [d]) (all_stocks_data s) rest (cons_feed s)).
Proof. intros H L. now apply retry_loop_success with (errs := errs). Qed.

(** X5: when the provider fails three times in a row,
    [_get_all_stocks_realtime] raises the third exception and asks no
    fourth time, whatever the provider would have answered then. *)
Theorem realtime_retry_exhausted (e1 e2 e3 : exn)
    (rest : list (exn + DataFrame)) (s : state) :
  spot_feed s = inl e1 :: inl e2 :: inl e3 :: rest ->
  _get_all_stocks_realtime s =
  (inl e3, mkState (heap s) (all_stocks_data s) rest (cons_feed s)).
Proof.
  intros H. apply retry_loop_failure with (errs := [e1; e2]); [exact H | reflexivity].
Qed.

End Retry.

Lemma realtime_retry_success_witness :
  _get_all_stocks_realtime
    (mkState [] None
       [inl (ProviderError "timeout"); inl (ProviderError "timeout");
        inr Examples.two_rows; inr Examples.no_roe] []) =
  (inr 0, mkState [Examples.two_rows] None [inr Examples.no_roe] []).
Proof.
  apply (realtime_retry_success
           [ProviderError "timeout"; ProviderError "timeout"] Examples.two_rows
           [inr Examples.no_roe]
           (mkState [] None
              [inl (ProviderError "timeout"); inl (ProviderError "timeout");
               inr Examples.two_rows; inr Examples.no_roe] [])).
  - reflexivity.
  - simpl. lia.
Defined.

Lemma realtime_retry_exhausted_witness :
  _get_all_stocks_realtime
    (mkState [] None
       [inl (ProviderError "timeout"); inl KeyError; inl ValueError;
        inr Examples.two_rows] []) =
  (inl ValueError, mkState [] None [inr Examples.two_rows] []).
Proof.
  apply (realtime_retry_exhausted
           (ProviderError "timeout") KeyError ValueError [inr Examples.two_rows]
           (mkState [] None
              [inl (ProviderError "timeout"); inl KeyError; inl ValueError;
               inr Examples.two_rows] [])).
  reflexivity.
Defined.

Section Loader.

Lemma extends_refl s : extends s s.
Proof. split; [exists []; now rewrite app_nil_r | reflexivity]. Qed.

Lemma extends_trans s1 s2 s3 : extends s1 s2 -> extends s2 s3 -> extends s1 s3.
Proof.
  intros [[e1 E1] A1] [[e2 E2] A2]. split; [|congruence].
  exists (e1 ++ e2). now rewrite E2, E1, app_assoc.
Qed.

Lemma steady_ret {A} (a : A) : steady (ret a).
Proof. intros s. apply extends_refl. Qed.

Lemma steady_raise {A} (e : exn) : steady (@raise A e).
Proof. intros s. apply extends_refl. Qed.

Lemma steady_bind {A B} (m : M A) (k : A -> M B) :
  steady m -> (forall a, steady (k a)) -> steady (bind m k).
Proof.
  intros Hm Hk s. unfold bind. specialize (Hm s).
  destruct (m s) as [[e|a] s1]; simpl in *; [assumption|].
  eapply extends_trans; [eassumption | apply Hk].
Qed.

Lemma steady_try_except {A} (body : M A) (handler : exn -> M A) :
  steady body -> (forall e, steady (handler e)) -> steady (try_except body handler).
Proof.
  intros Hb Hh s. unfold try_except. specialize (Hb s).
  destruct (body s) as [[e|a] s1]; simpl in *; [|assumption].
  eapply extends_trans; [eassumption | apply Hh].
Qed.

Lemma steady_get_frame l : steady (get_frame l).
Proof. intros s. apply extends_refl. Qed.

Lemma steady_new_frame d : steady (new_frame d).
Proof. intros s. split; simpl; eauto. Qed.

Lemma steady_getitem d c : steady (getitem d c).
Proof. unfold getitem. destruct (str_in c (columns d)); [apply steady_ret | apply steady_raise]. Qed.

Lemma steady_spot : steady ak_stock_zh_a_spot_em.
Proof.
  intros s. unfold ak_stock_zh_a_spot_em.
  destruct (spot_feed s) as [|[e|d] feed]; simpl;
    try (split; simpl; [exists []; now rewrite app_nil_r | reflexivity]).
  split; simpl; eauto.
Qed.

Lemma steady_cons code : steady (ak_index_stock_cons code).
Proof.
  intros s. unfold ak_index_stock_cons.
  destruct (cons_feed s) as [|r feed]; simpl; [apply extends_refl|].
  destruct (r code); simpl;
    [split; simpl; [exists []; now rewrite app_nil_r | reflexivity]|].
  split; simpl; eauto.
Qed.

Lemma steady_retry_loop {A} (n : nat) (last : option exn) (func : M A) :
  steady func -> steady (retry_loop n last func).
Proof.
  intros H. revert last. induction n as [|n IH]; intros last; simpl.
  - destruct last; apply steady_raise.
  - apply steady_try_except; [assumption | intros e; apply IH].
Qed.

Lemma steady_realtime : steady _get_all_stocks_realtime.
Proof. apply steady_retry_loop, steady_spot. Qed.

Lemma steady_custom codes : steady (_get_custom_stocks_data codes).
Proof.
  apply steady_try_except; [|intros; apply steady_new_frame].
  apply steady_bind; [apply steady_realtime|]. intros l.
  apply steady_bind; [apply steady_get_frame|]. intros d.
  apply steady_bind; [apply steady_getitem|]. intros col. apply steady_new_frame.
Qed.

Lemma steady_index code : steady (_get_index_stocks_data code).
Proof.
  apply steady_try_except; [|intros; apply steady_new_frame].
  apply steady_bind.
  { apply steady_retry_loop.
    apply steady_bind; [apply steady_cons|]. intros l.
    apply steady_bind; [apply steady_get_frame|]. intros d.
    apply steady_bind; [apply steady_getitem|]. intros col. apply steady_ret. }
  intros codes.
  apply steady_bind; [apply steady_realtime|]. intros l.
  apply steady_bind; [apply steady_get_frame|]. intros d.
  apply steady_bind; [apply steady_getitem|]. intros col. apply steady_new_frame.
Qed.

(** The part of [load_stock_data] that fetches the table. *)
Lemma steady_fetch scope custom_codes :
  steady (if String.eqb scope "all" then ak_stock_zh_a_spot_em
          else match index_code scope INDEX_CODE_MAP with
               | Some code => _get_index_stocks_data code
               | None =>
                   if startswith scope "custom:" || codes_truthy custom_codes then
                     let codes := match custom_codes with
                                  | Some (c :: cs) => c :: cs
                                  | _ => split (replace scope "custom:" "") ","
                                  end in
                     _get_custom_stocks_data codes
                   else ak_stock_zh_a_spot_em
               end).
Proof.
  destruct (String.eqb scope "all"); [apply steady_spot|].
  destruct (index_code scope INDEX_CODE_MAP); [apply steady_index|].
  destruct (startswith scope "custom:" || codes_truthy custom_codes);
    [apply steady_custom | apply steady_spot].
Qed.


(** X6: [load_stock_data] never raises, for any scope, code list and
    provider.  It returns a table object; the tables that existed
    before are unchanged; and either the screener now refers to the
    returned table, or (the handler ran) the screener's reference is
    what it was and the returned table is the empty table. *)
Theorem load_stock_data_never_raises (scope : string)
    (custom_codes : option (list string)) (s : state) :
  exists l s',
    load_stock_data scope custom_codes s = (inr l, s') /\
    (exists extra, heap s' = heap s ++ extra) /\
    (all_stocks_data s' = Some l \/
     all_stocks_data s' = all_stocks_data s /\ frame s' l = empty_frame).
Proof.
  unfold load_stock_data, try_except. unfold bind at 1.
  pose proof (steady_fetch scope custom_codes s) as Hf.
  match goal with
  | |- context [match ?m s with _ => _ end] => destruct (m s) as [[e|l] s1]
  end; simpl in Hf.
  - destruct Hf as [[extra E] A].
    eexists _, _. split; [reflexivity|]. simpl. split.
    + exists (extra ++ [empty_frame]). now rewrite E, app_assoc.
    + right. split; [assumption|]. unfold frame; simpl. now rewrite nth_middle.
  - destruct Hf as [[extra E] A].
    eexists _, _. split; [reflexivity|]. simpl. split; eauto.
Qed.

(** X7: [_get_custom_stocks_data] never raises, and every row of the
    table it returns has its 代码 among the codes asked for.  When the
    provider answers the first request with a table that has a 代码
    column, the result is exactly the rows of that table whose code is
    listed, in the order of the table. *)
Theorem custom_stocks_only_listed (codes : list string) (s : state) :
  exists l s',
    _get_custom_stocks_data codes s = (inr l, s') /\
    Forall (fun r => isin (map CStr codes) (cell_at r "代码") = true)
           (rows (frame s' l)) /\
    forall d rest,
      spot_feed s = inr d :: rest -> str_in "代码" (columns d) = true ->
      frame s' l = select d (fun r => isin (map CStr codes) (cell_at r "代码")).
Proof.
  unfold _get_custom_stocks_data, try_except. unfold bind at 1.
  destruct (_get_all_stocks_realtime s) as [[e|all] s1] eqn:R.
  - eexists _, _. split; [reflexivity|]. split.
    + unfold frame; simpl. rewrite nth_middle. constructor.
    + intros d rest Hs _. exfalso.
      unfold _get_all_stocks_realtime, retry_on_failure in R. simpl in R.
      unfold try_except, ak_stock_zh_a_spot_em in R. rewrite Hs in R. discriminate.
  - unfold bind at 1. unfold get_frame at 1. unfold bind at 1. unfold getitem.
    destruct (str_in "代码" (columns (frame s1 all))) eqn:C.
    + eexists _, _. split; [reflexivity|]. split.
      * unfold frame at 1; simpl. rewrite nth_middle. simpl.
        apply Forall_forall. intros r Hr. now apply filter_In in Hr.
      * intros d rest Hs Hc.
        unfold _get_all_stocks_realtime, retry_on_failure in R. simpl in R.
        unfold try_except, ak_stock_zh_a_spot_em in R. rewrite Hs in R.
        inversion R; subst; clear R.
        unfold frame; simpl. rewrite !nth_middle. reflexivity.
    + eexists _, _. split; [reflexivity|]. split.
      * unfold frame; simpl. rewrite nth_middle. constructor.
      * intros d rest Hs Hc. exfalso.
        unfold _get_all_stocks_realtime, retry_on_failure in R. simpl in R.
        unfold try_except, ak_stock_zh_a_spot_em in R. rewrite Hs in R.
        inversion R; subst; clear R.
        unfold frame in C; simpl in C. rewrite nth_middle in C. congruence.
Qed.

End Loader.

(** The code list [B] on the two example rows: the table returned has
    the row of B only. *)
Lemma custom_stocks_only_listed_witness :
  exists l s',
    _get_custom_stocks_data ["B"]
      (Examples.fresh Examples.two_rows) = (inr l, s') /\
    rows (frame s' l) = [Examples.row_B].
Proof.
  destruct (custom_stocks_only_listed ["B"]
              (Examples.fresh Examples.two_rows)) as (l & s' & E & _ & H).
  exists l, s'. split; [exact E|].
  rewrite (H Examples.two_rows [] eq_refl eq_refl). reflexivity.
Defined.

(** ** The scoring heuristic, further *)

Section FloatOrder.






End FloatOrder.

Section ScoreShape.

Context {RT : Runtime}.

Ltac split_ifs :=
  repeat match goal with
         | |- context [if ?b then _ else _] => destruct b
         end.

(** X8: every score lies between 30 and 95, whatever the row holds:
    the four rules together take at most 20 points from the base of 50
    and add at most 45, so the final clamp to 0..100 never changes a
    score. *)
Theorem calculate_score_tight (row : Series) :
  (30 <= calculate_score row <= 95)%Z.
Proof.
  unfold calculate_score. cbv zeta.
  set (S1 := if negb (PrimFloat.is_nan (_get_numeric_value row "市盈率-动态")) && _
             then _ else _).
  assert (H1 : (40 <= S1 <= 65)%Z) by (subst S1; split_ifs; lia).
  clearbody S1.
  set (S2 := if negb (PrimFloat.is_nan (_get_numeric_value row "市净率")) && _
             then _ else _).
  assert (H2 : (35 <= S2 <= 75)%Z) by (subst S2; split_ifs; lia).
  clearbody S2. clear H1 S1.
  set (S3 := match _find_column (index_to_frame_columns row) ROE_ALIASES with
             | Some _ => _ | None => _ end).
  assert (H3 : (30 <= S3 <= 90)%Z).
  { subst S3. destruct (_find_column _ _); split_ifs; lia. }
  clearbody S3. clear H2 S2.
  split_ifs; lia.
Qed.


(** X10: a row with no usable figure (every value under 市盈率-动态,
    市净率, 涨跌幅 and the ROE aliases missing or not a number) keeps
    the base score of 50. *)
Theorem calculate_score_neutral (row : Series) :
  (forall c, In c ["市盈率-动态"; "市净率"; "涨跌幅"] \/ In c ROE_ALIASES ->
             PrimFloat.is_nan (_get_numeric_value row c) = true) ->
  calculate_score row = 50%Z.
Proof.
  intros H. unfold calculate_score.
  rewrite !(H "市盈率-动态"), !(H "市净率"), !(H "涨跌幅") by (left; simpl; auto).
  destruct (_find_column _ ROE_ALIASES) as [col|] eqn:E; simpl; [|reflexivity].
  apply find_column_in_candidates in E.
  rewrite !(H col) by (now right). simpl.
  destruct (negb (String.eqb col "")); reflexivity.
Qed.


End ScoreShape.


(** A row that holds a code and placeholders only. *)
Lemma calculate_score_neutral_witness :
  calculate_score (RT := Reference.runtime)
    (mkSeries (Some "ROE")
       [("代码", CStr "Z"); ("市盈率-动态", CStr "--"); ("市净率", CNone)]) = 50%Z.
Proof.
  apply (calculate_score_neutral (RT := Reference.runtime)
           (mkSeries (Some "ROE")
              [("代码", CStr "Z"); ("市盈率-动态", CStr "--"); ("市净率", CNone)])).
  intros c [H|H]; simpl in H;
    repeat match goal with
           | H : _ \/ _ |- _ => destruct H
           | H : False |- _ => destruct H
           end; subst; vm_compute; reflexivity.
Defined.


(** ** The filters, further *)

Section FilterShape.

Context {RT : Runtime}.

(** X12: [apply_filters] is not destructive.  It returns a table object
    that did not exist before the call; every table that existed keeps
    its content, the one passed in included; and the screener's
    reference to its loaded data and the provider are untouched. *)
Theorem apply_filters_leaves_tables (s : state) (df : loc) (filters : Dict) :
  exists l' s',
    apply_filters df filters s = (inr l', s') /\
    List.length (heap s) <= l' /\
    (forall l, l < List.length (heap s) -> frame s' l = frame s l) /\
    all_stocks_data s' = all_stocks_data s /\
    spot_feed s' = spot_feed s /\ cons_feed s' = cons_feed s.
Proof.
  destruct (apply_filters_returns s df filters) as (l' & s' & E & G & Lo & _).
  exists l', s'. split; [exact E|]. split; [exact Lo|]. split.
  - intros l Hl. now apply grows_frame.
  - destruct G as (_ & A & B & C). auto.
Qed.

(** X13: [apply_filters] reads the filter specification through eight
    keys only.  Two specifications that agree on them give the same
    run; any other entry, such as the [dividend_min] that [main] puts
    into the specification, has no effect on the filtering. *)
Theorem apply_filters_reads_recognized_keys (f f' : Dict) (df : loc) :
  (forall key, In key recognized_keys -> dict_get f key = dict_get f' key) ->
  apply_filters df f = apply_filters df f'.
Proof.
  intros H. unfold apply_filters.
  rewrite !(H "pe_min"), !(H "pe_max"), !(H "pb_min"), !(H "pb_max"),
    !(H "roe_min"), !(H "debt_ratio_max"), !(H "market_cap_min"),
    !(H "market_cap_max") by (simpl; tauto).
  reflexivity.
Qed.




End FilterShape.

(** A specification with [dividend_min] beside [pe_max] filters as the
    one with [pe_max] alone. *)
Lemma apply_filters_reads_recognized_keys_witness :
  apply_filters (RT := Reference.runtime) 0
    [("dividend_min", Some 3%float); ("pe_max", Some 20%float)] =
  apply_filters (RT := Reference.runtime) 0 [("pe_max", Some 20%float)].
Proof.
  apply (apply_filters_reads_recognized_keys (RT := Reference.runtime)
           [("dividend_min", Some 3%float); ("pe_max", Some 20%float)]
           [("pe_max", Some 20%float)] 0).
  intros key H. simpl in H.
  repeat match goal with
         | H : _ \/ _ |- _ => destruct H
         | H : False |- _ => destruct H
         end; subst; reflexivity.
Defined.


(** ** Whole runs of [screen] *)

Section ScreenRuns.

Context {RT : Runtime}.





Lemma results_of_rows_shape (l : list Series) (res : list Result) :
  results_of_rows l = inr res ->
  map r_code res = map (fun row => series_get row "代码" (CStr "")) l /\
  forall x, In x res ->
    exists row, In row l /\
      r_code x = series_get row "代码" (CStr "") /\
      r_score x = series_get row "评分" (CNum 50%float).
Proof.
  revert res. induction l as [|row l IH]; intros res; simpl.
  - intros H. inversion H. split; [reflexivity|]. intros x [].
  - unfold result_of_row.
    destruct (if truthy (series_get row "总市值" CNone) then _ else _) as [e|cap];
      [discriminate|].
    destruct (results_of_rows l) as [e|results]; [discriminate|].
    intros H. inversion H; subst; clear H. simpl.
    destruct (IH results eq_refl) as (C & S). split; [now rewrite C|].
    intros x [<-|Hx]; simpl.
    + exists row. auto.
    + destruct (S x Hx) as (row' & Hin & H'). exists row'. auto.
Qed.





(** *** A provider that only raises *)

Lemma fails_spot : fails_on ak_stock_zh_a_spot_em.
Proof.
  intros s [Hs Hc]. unfold ak_stock_zh_a_spot_em.
  destruct (spot_feed s) as [|a feed] eqn:E.
  - eexists _, s. split; [reflexivity|]. split; [now rewrite E | assumption].
  - inversion Hs as [|? ? [e ->] Hf]; subst.
    eexists e, _. split; [reflexivity|]. split; assumption.
Qed.

Lemma fails_cons code : fails_on (ak_index_stock_cons code).
Proof.
  intros s [Hs Hc]. unfold ak_index_stock_cons.
  destruct (cons_feed s) as [|r feed] eqn:E.
  - eexists _, s. split; [reflexivity|]. split; [assumption | now rewrite E].
  - inversion Hc as [|? ? Hr Hf]; subst.
    destruct (Hr code) as [e He]. rewrite He.
    eexists e, _. split; [reflexivity|]. split; assumption.
Qed.

Lemma fails_bind {A B} (m : M A) (k : A -> M B) : fails_on m -> fails_on (bind m k).
Proof.
  intros Hm s Hs. destruct (Hm s Hs) as (e & s' & E & Hs').
  exists e, s'. unfold bind. now rewrite E.
Qed.

Lemma fails_retry {A} (n : nat) (last : option exn) (func : M A) :
  fails_on func -> fails_on (retry_loop n last func).
Proof.
  intros Hf. revert last. induction n as [|n IH]; intros last s Hs; simpl.
  - destruct last as [e|]; eexists _, s; split; try reflexivity; assumption.
  - destruct (Hf s Hs) as (e & s' & E & Hs').
    unfold try_except. rewrite E. apply IH, Hs'.
Qed.

Lemma handled_empty (body : M loc) (s : state) :
  fails_on body -> provider_fails s ->
  exists l s',
    try_except body (fun _ => new_frame empty_frame) s = (inr l, s') /\
    frame s' l = empty_frame.
Proof.
  intros Hb Hs. destruct (Hb s Hs) as (e & s1 & E & _).
  unfold try_except. rewrite E. eexists _, _. split; [reflexivity|].
  unfold frame; simpl. now rewrite nth_middle.
Qed.

Lemma load_provider_fails (scope : string) (custom_codes : option (list string)) (s : state) :
  provider_fails s ->
  exists l s', load_stock_data scope custom_codes s = (inr l, s') /\
               frame s' l = empty_frame.
Proof.
  intros Hs. unfold load_stock_data.
  assert (Inner : forall body : M loc, fails_on body ->
            exists l s',
              try_except
                (df <- try_except body (fun _ => new_frame empty_frame) ;;
                 set_all_stocks_data df ;; ret df)
                (fun _ => new_frame empty_frame) s = (inr l, s') /\
              frame s' l = empty_frame).
  { intros body Hb. destruct (handled_empty body s Hb Hs) as (l & s1 & E & F).
    unfold try_except at 1. unfold bind at 1. rewrite E.
    eexists _, _. split; [reflexivity | exact F]. }
  destruct (String.eqb scope "all").
  { apply handled_empty; [apply fails_bind, fails_spot | assumption]. }
  destruct (index_code scope INDEX_CODE_MAP) as [code|].
  { apply Inner. apply fails_bind. apply fails_retry, fails_bind, fails_cons. }
  destruct (startswith scope "custom:" || codes_truthy custom_codes).
  { cbv zeta. apply Inner. apply fails_bind. apply fails_retry, fails_spot. }
  apply handled_empty; [apply fails_bind, fails_spot | assumption].
Qed.

(** X17: when every answer of the provider is an exception, [screen]
    returns the empty list for every scope (whole market, index, code
    list, unknown), filter specification, sort key and limit: the
    failure of the provider never surfaces as an exception. *)
Theorem screen_provider_fails (scope : string) (filters : option Dict)
    (sort_by : string) (top_n : option Z) (s : state) :
  provider_fails s ->
  fst (screen scope filters sort_by top_n s) = inr [].
Proof.
  intros Hs. unfold screen, scored. unfold bind at 1. unfold bind at 1.
  destruct (startswith scope "custom:"); cbv zeta;
    [destruct (load_provider_fails "custom"
                 (Some (split (replace scope "custom:" "") ",")) s Hs)
       as (l & s1 & E & F)
    |destruct (load_provider_fails scope None s Hs) as (l & s1 & E & F)];
    rewrite E; unfold bind at 1; unfold get_frame at 1; rewrite F; reflexivity.
Qed.

(** *** What a successful run returns *)

Lemma str_in_app c l l' : str_in c (l ++ l') = str_in c l || str_in c l'.
Proof. unfold str_in. apply existsb_app. Qed.

Lemma series_get_row_series (d : DataFrame) (r : record) (c : string) (def : cell) :
  str_in c (columns d) = true -> series_get (row_series d r) c def = cell_at r c.
Proof.
  unfold series_get, row_series, str_in; simpl.
  induction (columns d) as [|a l IH]; simpl; [discriminate|].
  rewrite String.eqb_sym.
  destruct (String.eqb_spec a c); [subst; reflexivity|]. simpl. exact IH.
Qed.

Lemma kept_table_rows d filters :
  rows (kept_table d filters) =
  map (fun r => match filters with
                | Some (e :: f) => with_cap (columns d) (e :: f) r
                | _ => r
                end) (kept_rows d filters).
Proof.
  unfold kept_table, kept_rows. destruct filters as [[|e f]|]; simpl;
    try (now rewrite map_id). reflexivity.
Qed.

Lemma kept_table_columns d filters c :
  str_in c (columns d) = true -> str_in c (columns (kept_table d filters)) = true.
Proof.
  intros H. unfold kept_table. destruct filters as [[|e f]|]; simpl; auto.
  destruct (_ && _); [|assumption]. rewrite str_in_app, H. reflexivity.
Qed.

Lemma scored_table_columns t c :
  str_in c (columns t) = true -> str_in c (columns (scored_table t)) = true.
Proof.
  intros H. unfold scored_table, setitem; simpl.
  destruct (str_in "评分" (columns t)); [assumption|]. rewrite str_in_app, H. reflexivity.
Qed.

Lemma scored_table_has_score t : str_in "评分" (columns (scored_table t)) = true.
Proof.
  unfold scored_table, setitem; simpl.
  destruct (str_in "评分" (columns t)) eqn:E; [assumption | apply str_in_app_self].
Qed.

Lemma empty_rows t : columns t <> [] -> empty t = true -> rows t = [].
Proof.
  unfold empty. destruct (columns t); [congruence|]. destruct (rows t); [reflexivity|discriminate].
Qed.

Lemma scored_all (s : state) (d : DataFrame) feed (filters : option Dict) :
  spot_feed s = inr d :: feed ->
  exists o s1,
    scored "all" filters s = (inr o, s1) /\
    match o with
    | None => empty d = true \/ empty (kept_table d filters) = true
    | Some l => frame s1 l = scored_table (kept_table d filters)
    end.
Proof.
  intros H. unfold scored. simpl startswith. cbv iota.
  unfold bind at 1. rewrite (load_all _ _ _ H).
  set (s0 := mkState (heap s ++ [d]) (Some (List.length (heap s))) feed (cons_feed s)).
  assert (F : frame s0 (List.length (heap s)) = d).
  { unfold frame; simpl. now rewrite nth_middle. }
  assert (L0 : List.length (heap s0) = S (List.length (heap s))).
  { simpl. rewrite length_app. simpl. lia. }
  unfold bind at 1. unfold get_frame at 1. rewrite F.
  destruct (empty d) eqn:He; [eexists _, _; split; [reflexivity | now left]|].
  destruct filters as [[|e f]|]; simpl filters_truthy; cbv iota.
  - unfold bind at 1, ret at 1. unfold bind at 1, get_frame at 1. rewrite F, He.
    eexists _, _. split; [reflexivity|]. simpl.
    unfold frame; simpl. apply nth_list_set. rewrite length_app; simpl; lia.
  - destruct (apply_filters_returns s0 (List.length (heap s)) (e :: f))
      as (l' & s2 & E & G & Lo & Hi & Fr).
    unfold bind at 1. rewrite E. rewrite F in Fr.
    unfold bind at 1. unfold get_frame at 1. rewrite Fr.
    destruct (empty (filtered d (e :: f))) eqn:He2;
      [eexists _, _; split; [reflexivity | now right]|].
    eexists _, _. split; [reflexivity|]. simpl.
    unfold frame; simpl. now apply nth_list_set.
  - unfold bind at 1, ret at 1. unfold bind at 1, get_frame at 1. rewrite F, He.
    eexists _, _. split; [reflexivity|]. simpl.
    unfold frame; simpl. apply nth_list_set. rewrite length_app; simpl; lia.
Qed.

Lemma sort_values_frame df c asc s l' s' :
  sort_values df c asc s = (inr l', s') ->
  exists sorted,
    sort_values_rows c asc (rows (frame s df)) = inr sorted /\
    frame s' l' = mkDataFrame (columns_name (frame s df)) (columns (frame s df)) sorted.
Proof.
  unfold sort_values, bind, get_frame.
  destruct (sort_values_rows c asc (rows (frame s df))) as [e|sorted]; simpl;
    [discriminate|].
  intros H. inversion H; subst; clear H. exists sorted. split; [reflexivity|].
  unfold frame at 1; simpl. now rewrite nth_middle.
Qed.

Lemma rank_frame (sort_by : string) df s l' s' :
  sort_contract sort_values_rows ->
  rank df sort_by s = (inr l', s') ->
  Permutation (rows (frame s df)) (rows (frame s' l')) /\
  columns (frame s' l') = columns (frame s df) /\
  columns_name (frame s' l') = columns_name (frame s df).
Proof.
  intros K. unfold rank.
  assert (S : forall c asc, sort_values df c asc s = (inr l', s') ->
              Permutation (rows (frame s df)) (rows (frame s' l')) /\
              columns (frame s' l') = columns (frame s df) /\
              columns_name (frame s' l') = columns_name (frame s df)).
  { intros c asc H. apply sort_values_frame in H. destruct H as (sorted & E & ->).
    simpl. split; [apply (K _ _ _ _ E) | auto]. }
  assert (I : (ret df : M loc) s = (inr l', s') ->
              Permutation (rows (frame s df)) (rows (frame s' l')) /\
              columns (frame s' l') = columns (frame s df) /\
              columns_name (frame s' l') = columns_name (frame s df)).
  { intros H. inversion H; subst. auto. }
  destruct (String.eqb sort_by "score"); [apply S|].
  destruct (String.eqb sort_by "pe").
  { unfold bind at 1, get_frame at 1. destruct (str_in _ _); [apply S | apply I]. }
  destruct (String.eqb sort_by "pb").
  { unfold bind at 1, get_frame at 1. destruct (str_in _ _); [apply S | apply I]. }
  destruct (String.eqb sort_by "market_cap").
  { unfold bind at 1, get_frame at 1. destruct (str_in _ _); [apply S | apply I]. }
  apply I.
Qed.

Lemma with_cap_code d filters r c :
  c <> "总市值_亿" ->
  cell_at (with_cap (columns d) filters r) c = cell_at r c.
Proof.
  intros Hc. unfold with_cap. destruct (cap_applied _ _); [|reflexivity].
  now apply cell_at_set_cell_other.
Qed.

(** X18: what a run over the whole market returns when nothing raises
    and no limit is given.  For a loaded table with a 代码 column and a
    library sort that meets its contract, the codes of the results are,
    up to order, the codes of the rows the filter specification
    retains (of all rows when there is none): every retained row is
    reported once, for every sort key.  Each result carries, under 评分,
    the score [calculate_score] gives to the row it reports. *)
Theorem screen_all_results (s : state) (d : DataFrame) feed
    (filters : option Dict) (sort_by : string) (res : list Result) :
  sort_contract sort_values_rows ->
  spot_feed s = inr d :: feed ->
  str_in "代码" (columns d) = true ->
  fst (screen "all" filters sort_by None s) = inr res ->
  Permutation (map r_code res)
              (map (fun r => cell_at r "代码") (kept_rows d filters)) /\
  Forall (fun x =>
            exists r, In r (rows (kept_table d filters)) /\
              r_code x = cell_at r "代码" /\
              r_score x =
                CNum (float_of_int
                        (calculate_score (row_series (kept_table d filters) r))))
         res.
Proof.
  intros K Hs Hc. unfold screen. unfold bind at 1.
  destruct (scored_all s d feed filters Hs) as (o & s1 & E & Ho). rewrite E.
  assert (Hcols : columns d <> []) by (intros X; rewrite X in Hc; discriminate).
  destruct o as [l|].
  2:{ intros H. inversion H; subst. simpl. split; [|constructor].
      assert (Z : kept_rows d filters = []).
      { destruct Ho as [He|He].
        - apply empty_rows in He; [|assumption].
          unfold kept_rows. destruct filters as [[|e f]|]; try assumption.
          now rewrite He.
        - apply empty_rows in He.
          + rewrite kept_table_rows in He. now apply map_eq_nil in He.
          + intros X. pose proof (kept_table_columns d filters _ Hc) as Y.
            rewrite X in Y. discriminate. }
      rewrite Z. constructor. }
  unfold bind at 1.
  destruct (rank l sort_by s1) as [[e|l2] s2] eqn:R; [discriminate|].
  destruct (rank_frame _ _ _ _ _ K R) as (P & C & N).
  unfold limit; simpl. unfold bind, ret, get_frame. rewrite fst_lift.
  intros H. unfold to_results in H. apply results_of_rows_shape in H.
  destruct H as (Hcode & Hrow).
  rewrite Ho in P, C.
  set (t := kept_table d filters) in *.
  assert (Ccode : str_in "代码" (columns (frame s2 l2)) = true).
  { rewrite C. apply scored_table_columns, kept_table_columns, Hc. }
  assert (Cscore : str_in "评分" (columns (frame s2 l2)) = true).
  { rewrite C. apply scored_table_has_score. }
  split.
  - rewrite Hcode, map_map.
    rewrite (map_ext _ (fun r => cell_at r "代码"))
      by (intros r; now apply series_get_row_series).
    rewrite <- P. unfold scored_table, setitem; simpl. rewrite map_map.
    subst t. rewrite kept_table_rows, map_map.
    erewrite map_ext; [reflexivity|]. intros r. simpl.
    rewrite cell_at_set_cell_other by discriminate.
    destruct filters as [[|e f]|]; try reflexivity.
    now apply with_cap_code.
  - apply Forall_forall. intros x Hx.
    destruct (Hrow x Hx) as (row & Hin & Hxc & Hxs).
    apply in_map_iff in Hin. destruct Hin as (r' & <- & Hin).
    rewrite series_get_row_series in Hxc, Hxs by assumption.
    apply (Permutation_in _ (Permutation_sym P)) in Hin.
    unfold scored_table, setitem in Hin; simpl in Hin.
    apply in_map_iff in Hin. destruct Hin as (r0 & <- & Hr0).
    rewrite cell_at_set_cell in Hxs.
    rewrite cell_at_set_cell_other in Hxc by discriminate.
    exists r0. auto.
Qed.

End ScreenRuns.


(** The index scope with a provider that times out on every request. *)
Lemma screen_provider_fails_witness :
  fst (screen (RT := Reference.runtime) "hs300" (Some [("pe_max", Some 20%float)])
         "score" (Some 10%Z)
         (mkState [] None
            [inl (ProviderError "timeout"); inl (ProviderError "timeout");
             inl (ProviderError "timeout")]
            [fun _ => inl (ProviderError "timeout");
             fun _ => inl (ProviderError "timeout");
             fun _ => inl (ProviderError "timeout")])) = inr [].
Proof.
  apply (screen_provider_fails (RT := Reference.runtime) "hs300"
           (Some [("pe_max", Some 20%float)]) "score" (Some 10%Z)).
  split; simpl; repeat constructor; eauto.
Defined.

(** The bound [pe_max = 20] on the two example rows, ranked by score:
    the one result is the row of A. *)
Lemma screen_all_results_witness :
  exists res,
    fst (screen (RT := Reference.runtime) "all" (Some [("pe_max", Some 20%float)])
           "score" None (Examples.fresh Examples.two_rows)) = inr res /\
    Permutation (map r_code res) [CStr "A"].
Proof.
  destruct (screen (RT := Reference.runtime) "all" (Some [("pe_max", Some 20%float)])
              "score" None (Examples.fresh Examples.two_rows)) as [[e|res] s'] eqn:E.
  - exfalso. vm_compute in E. discriminate.
  - exists res. split; [reflexivity|].
    destruct (screen_all_results (RT := Reference.runtime)
                (Examples.fresh Examples.two_rows) Examples.two_rows []
                (Some [("pe_max", Some 20%float)]) "score" res
                stable_sort_contract eq_refl eq_refl)
      as (P & _).
    + now rewrite E.
    + exact P.
Defined.


(** * Properties of the fetchers *)

Section FetcherProps.

Import Fetcher.

Lemma fetcher_retry_loop_returns (m n : nat) (last : option error) (func : F value) (w : world) :
  exists v w',
    retry_loop m n last func w = (inr v, w') /\
    ((exists w0, func w0 = (inr v, w')) \/
     exists last', v = VDict [("error", IRetryMessage m last')]).
Proof.
  revert last w. induction n as [|n IH]; intros last w; simpl.
  - eexists _, _. split; [reflexivity|]. right. eauto.
  - unfold ftry. destruct (func w) as [[e|v] w'] eqn:E; [apply IH|].
    exists v, w'. split; [reflexivity|]. left. eauto.
Qed.

(** X19: the retry wrapper of the fetchers never raises, whatever the
    wrapped function does: it returns either a value the function
    returned or the dictionary with the one entry [error].  When the
    first attempt succeeds (and at least one attempt is allowed) its
    value is returned and the function is not called again. *)
Theorem fetcher_retry_never_raises (n : nat) (func : F value) (w : world) :
  (exists v w',
     retry_on_failure n func w = (inr v, w') /\
     ((exists w0, func w0 = (inr v, w')) \/
      exists last, v = VDict [("error", IRetryMessage n last)])) /\
  (forall v w', func w = (inr v, w') -> 0 < n ->
                retry_on_failure n func w = (inr v, w')).
Proof.
  split; [apply fetcher_retry_loop_returns|].
  intros v w' H Hn. unfold retry_on_failure.
  destruct n as [|n]; [lia|]. simpl. unfold ftry. now rewrite H.
Qed.

Lemma to_records_length (d : DataFrame) : List.length (to_records d) = List.length (rows d).
Proof. unfold to_records. apply length_map. Qed.

Lemma head_length (d : DataFrame) (n : Z) :
  (0 <= n)%Z -> (Z.of_nat (List.length (rows (head d n))) <= n)%Z.
Proof.
  intros Hn. unfold head; simpl. destruct (Z.leb_spec 0 n); [|lia].
  rewrite length_firstn. lia.
Qed.

(** One statement of [get_financial_data]: the entry of the statement
    is set to at most [max_records] records, or an error entry is
    added; nothing is raised. *)
Lemma financial_step (ep : endpoint) (code : string) (n : Z) (w : world) :
  (0 <= n)%Z ->
  exists (r : option (list record) + error) w',
    (forall key error_key result,
       ftry (df <~ ak ep code ;;
             match df with
             | Some d =>
                 if negb (empty d)
                 then fret (dict_set result key (IRecords (to_records (head d n))))
                 else fret result
             | None => fret result
             end)
            (fun e => fret (dict_set result error_key (IMessage e))) w
       = (inr match r with
              | inl (Some l) => dict_set result key (IRecords l)
              | inl None => result
              | inr e => dict_set result error_key (IMessage e)
              end, w')) /\
    match r with
    | inl (Some l) => (Z.of_nat (List.length l) <= n)%Z
    | _ => True
    end.
Proof.
  intros Hn. unfold ftry, fbind, ak.
  destruct (w ep) as [|a rest].
  - exists (inr (Raised (ProviderError "no response"))), w. split; [reflexivity | exact I].
  - destruct (a code) as [e|[d|]].
    + eexists (inr (Raised e)), _. split; [reflexivity | exact I].
    + destruct (empty d) eqn:E; simpl.
      * eexists (inl None), _. split; [reflexivity | exact I].
      * eexists (inl (Some (to_records (head d n)))), _. split; [reflexivity|].
        rewrite to_records_length. now apply head_length.
    + eexists (inl None), _. split; [reflexivity | exact I].
Qed.


(** One round of a loop with fallback: the endpoint is asked once; the
    function returns on a table with rows, and goes on otherwise. *)
Lemma fallback_step {A} (ep : endpoint) (code : string) (f : DataFrame -> A) (w : world) :
  exists (r : option A) w',
    ftry (df <~ ak ep code ;;
          match df with
          | Some d => if negb (empty d) then fret (Some (f d)) else fret None
          | None => fret None
          end)
         (fun _ => fret None) w = (inr r, w') /\
    (forall ep', ep' <> ep -> w' ep' = w ep') /\
    match r with
    | Some a => exists d, a = f d /\ empty d = false /\
                          exists h rest, w ep = h :: rest /\ h code = inr (Some d)
    | None => True
    end.
Proof.
  assert (O : forall rest ep', ep' <> ep ->
            (if endpoint_eqb ep' ep then rest else w ep') = w ep').
  { intros rest ep' Hn. destruct ep', ep; simpl; try reflexivity; congruence. }
  unfold ftry, fbind, ak.
  destruct (w ep) as [|a rest] eqn:Ew.
  - exists None, w. repeat split; auto.
  - destruct (a code) as [e|[d|]] eqn:Ea.
    + eexists None, _. split; [reflexivity|]. split; [apply O | exact I].
    + destruct (empty d) eqn:E; simpl.
      * eexists None, _. split; [reflexivity|]. split; [apply O | exact I].
      * eexists (Some (f d)), _. split; [reflexivity|]. split; [apply O|].
        exists d. repeat split; auto. eauto.
    + eexists None, _. split; [reflexivity|]. split; [apply O | exact I].
Qed.

(** X21: [get_financial_indicators] never raises and returns a list of
    records, of at most [limit] records for a non-negative [limit].
    When the first endpoint answers with a table that has rows, the
    result is the head of that table and the second endpoint is not
    asked. *)
Theorem financial_indicators_fallback (code : string) (limit : Z) (w : world) :
  exists l w',
    get_financial_indicators code limit w = (inr (VRecords l), w') /\
    ((0 <= limit)%Z -> (Z.of_nat (List.length l) <= limit)%Z) /\
    (forall h rest d,
       w stock_financial_abstract = h :: rest -> h code = inr (Some d) ->
       empty d = false ->
       l = to_records (head d limit) /\
       w' stock_financial_analysis_indicator = w stock_financial_analysis_indicator).
Proof.
  unfold get_financial_indicators. cbn [indicators_loop].
  destruct (fallback_step stock_financial_abstract code
              (fun d => VRecords (to_records (head d limit))) w)
    as (r1 & w1 & E1 & O1 & S1).
  unfold fbind at 1. rewrite E1.
  destruct r1 as [v|].
  - destruct S1 as (d & -> & Hd & h & rest & Hw & Hh).
    eexists _, _. split; [reflexivity|]. split.
    + intros Hl. rewrite to_records_length. now apply head_length.
    + intros h' rest' d' Hw' Hh' _. rewrite Hw in Hw'. inversion Hw'; subst.
      rewrite Hh in Hh'. inversion Hh'; subst. split; [reflexivity|].
      apply O1. discriminate.
  - destruct (fallback_step stock_financial_analysis_indicator code
                (fun d => VRecords (to_records (head d limit))) w1)
      as (r2 & w2 & E2 & O2 & S2).
    unfold fbind at 1. rewrite E2.
    assert (No : forall h rest d,
              w stock_financial_abstract = h :: rest -> h code = inr (Some d) ->
              empty d = false -> False).
    { intros h rest d Hw Hh Hd. clear - E1 Hw Hh Hd.
      unfold ftry, fbind, ak in E1. rewrite Hw, Hh, Hd in E1. simpl in E1.
      discriminate. }
    destruct r2 as [v|].
    + destruct S2 as (d & -> & Hd & _).
      eexists _, _. split; [reflexivity|]. split.
      * intros Hl. rewrite to_records_length. now apply head_length.
      * intros h rest d' Hw Hh Hd'. exfalso. eauto.
    + eexists _, _. split; [reflexivity|]. split.
      * simpl. lia.
      * intros h rest d' Hw Hh Hd'. exfalso. eauto.
Qed.


(** X24: [get_index_constituents] never raises and returns a list;
    for a name that is not one of the five index short names the list
    is empty and the provider is not asked. *)
Theorem index_constituents_never_raises (index_name : string) (w : world) :
  (exists codes w', get_index_constituents index_name w = (inr (VCells codes), w')) /\
  (index_map_get index_map index_name = None ->
   get_index_constituents index_name w = (inr (VCells []), w)).
Proof.
  unfold get_index_constituents, retry_on_failure. cbn [retry_loop]. unfold ftry at 1 3.
  destruct (index_map_get index_map index_name) as [index_code|].
  2:{ split; [eexists _, _; reflexivity | reflexivity]. }
  split; [|discriminate].
  destruct (String.eqb index_code ""); [eexists _, _; reflexivity|].
  unfold ftry, fbind, ak.
  destruct (w index_stock_cons) as [|a rest]; [eexists _, _; reflexivity|].
  destruct (a index_code) as [e|[d|]]; try (eexists _, _; reflexivity).
  destruct (empty d); simpl; [eexists _, _; reflexivity|].
  unfold column_tolist. destruct (str_in "品种代码" (columns d));
    eexists _, _; reflexivity.
Qed.

(** X25: [get_all_a_stocks] never raises and returns a list; when the
    provider answers with a table that has rows and a 代码 column, the
    list is that column, in the order of the table. *)
Theorem all_a_stocks_never_raises (w : world) :
  (exists codes w', get_all_a_stocks w = (inr (VCells codes), w')) /\
  (forall h rest d,
     w stock_zh_a_spot_em = h :: rest -> h "" = inr (Some d) ->
     empty d = false -> str_in "代码" (columns d) = true ->
     fst (get_all_a_stocks w) = inr (VCells (map (fun r => cell_at r "代码") (rows d)))).
Proof.
  unfold get_all_a_stocks, ftry, fbind, ak. split.
  - destruct (w stock_zh_a_spot_em) as [|a rest]; [eexists _, _; reflexivity|].
    destruct (a "") as [e|[d|]]; try (eexists _, _; reflexivity).
    destruct (empty d); simpl; [eexists _, _; reflexivity|].
    unfold column_tolist. destruct (str_in "代码" (columns d));
      eexists _, _; reflexivity.
  - intros h rest d Hw Hh He Hc. rewrite Hw, Hh, He. simpl.
    unfold column_tolist. rewrite Hc. reflexivity.
Qed.

(** X22: [get_holder_data] never raises and returns a dictionary in
    which every list of records has at most ten records. *)
Theorem holder_data_bounded (code : string) (w : world) :
  exists result w',
    get_holder_data code w = (inr (VDict result), w') /\
    forall key l, In (key, IRecords l) result -> List.length l <= 10.
Proof.
  unfold get_holder_data, retry_on_failure. cbn [retry_loop]. unfold ftry at 1.
  cbv zeta. unfold fbind at 1.
  destruct (financial_step stock_gdfx_top_10_em code 10 w ltac:(lia))
    as (r1 & w1 & E1 & B1).
  rewrite E1.
  destruct (financial_step stock_zh_a_gdhs code 10 w1 ltac:(lia))
    as (r2 & w2 & E2 & B2).
  unfold fbind at 1. rewrite E2. unfold fret.
  eexists _, _. split; [reflexivity|].
  intros key l Hin.
  destruct r1 as [[l1|]|e1], r2 as [[l2|]|e2]; simpl in Hin;
    repeat match goal with
           | H : _ \/ _ |- _ => destruct H
           | H : False |- _ => destruct H
           | H : (_, _) = (_, _) |- _ => inversion H; subst; clear H
           end; lia.
Qed.

Section BatchProps.

Variable fetch_stock_data : string -> string -> F StockData.
Variable now : string.

Lemma batch_loop_counts (codes : list string) (data_type : string) (b : Batch) (w : world) :
  exists b' w',
    batch_loop fetch_stock_data codes data_type b w = (inr b', w') /\
    fetch_time b' = fetch_time b /\
    (exists added, stocks b' = stocks b ++ added /\
       Forall no_error added /\
       success_count b' = (success_count b + Z.of_nat (List.length added))%Z /\
       (success_count b' + fail_count b'
        = success_count b + fail_count b + Z.of_nat (List.length codes))%Z).
Proof.
  revert b w. induction codes as [|code rest IH]; intros b w; cbn [batch_loop].
  - eexists _, _. split; [reflexivity|]. split; [reflexivity|].
    exists []. rewrite app_nil_r. simpl. repeat split; auto; lia.
  - unfold fbind at 1. unfold ftry, fbind at 1.
    destruct (fetch_stock_data code data_type w) as [[e|sd] w1].
    + simpl. destruct (IH (mkBatch (fetch_time b) (stocks b) (success_count b)
                                   (fail_count b + 1)) w1)
        as (b' & w' & E & T & added & S & N & C1 & C2).
      exists b', w'. split; [exact E|]. split; [exact T|].
      exists added. simpl in *. repeat split; auto. lia.
    + destruct (StockScreener.is_some (dict_find match basic_info sd with
                                   | Some d => d | None => [] end "error")) eqn:Err;
        simpl.
      * destruct (IH (mkBatch (fetch_time b) (stocks b) (success_count b)
                              (fail_count b + 1)) w1)
          as (b' & w' & E & T & added & S & N & C1 & C2).
        exists b', w'. split; [exact E|]. split; [exact T|].
        exists added. simpl in *. repeat split; auto. lia.
      * destruct (IH (mkBatch (fetch_time b) (stocks b ++ [sd]) (success_count b + 1)
                              (fail_count b)) w1)
          as (b' & w' & E & T & added & S & N & C1 & C2).
        exists b', w'. split; [exact E|]. split; [exact T|].
        exists (sd :: added). simpl in *. rewrite S, <- app_assoc. simpl.
        repeat split; auto.
        -- constructor; [|assumption]. unfold no_error.
           destruct (basic_info sd) as [d|]; [|exact I].
           destruct (dict_find d "error"); [discriminate | reflexivity].
        -- lia.
        -- lia.
Qed.

(** X26: the counters of [fetch_multiple_stocks].  Whatever
    [fetch_stock_data] returns or raises for each code, the batch
    never raises; its time stamp is the time of the call;
    [success_count] is the number of entries of [stocks]; the two
    counters add up to the number of codes asked for; and no entry of
    [stocks] has an error in its basic information. *)
Theorem batch_counts (codes : list string) (data_type : string) (w : world) :
  exists b w',
    fetch_multiple_stocks fetch_stock_data now codes data_type w = (inr b, w') /\
    fetch_time b = now /\
    success_count b = Z.of_nat (List.length (stocks b)) /\
    (success_count b + fail_count b = Z.of_nat (List.length codes))%Z /\
    Forall no_error (stocks b).
Proof.
  unfold fetch_multiple_stocks.
  destruct (batch_loop_counts codes data_type (mkBatch now [] 0 0) w)
    as (b & w' & E & T & added & S & N & C1 & C2).
  exists b, w'. simpl in *.
  split; [exact E|]. split; [exact T|]. rewrite S.
  split; [lia|]. split; [lia | exact N].
Qed.

End BatchProps.

End FetcherProps.


(** The first endpoint answers with five reports: the indicators are
    the first three of them. *)
Lemma financial_indicators_fallback_witness :
  exists w',
    Fetcher.get_financial_indicators "600519" 3 FetcherExamples.some_answers =
    (inr (Fetcher.VRecords
            (Fetcher.to_records (head FetcherExamples.reports 3))), w').
Proof.
  destruct (financial_indicators_fallback "600519" 3 FetcherExamples.some_answers)
    as (l & w' & E & _ & H).
  destruct (H (fun _ => inr (Some FetcherExamples.reports)) [] FetcherExamples.reports
              eq_refl eq_refl eq_refl) as [-> _].
  exists w'. exact E.
Defined.

(** The codes of the two example rows. *)
Lemma all_a_stocks_never_raises_witness :
  fst (Fetcher.get_all_a_stocks FetcherExamples.some_answers) =
  inr (Fetcher.VCells [CStr "A"; CStr "B"]).
Proof.
  destruct (all_a_stocks_never_raises FetcherExamples.some_answers) as [_ H].
  exact (H (fun _ => inr (Some Examples.two_rows)) [] Examples.two_rows
           eq_refl eq_refl eq_refl eq_refl).
Defined.
